(** * A shallow embedding of the navigation controller ([index.js]) and of the
      developer sync script ([dev.mjs]).

    The browser and Node platforms are not part of the repository.  What the
    program observes of them is made explicit:
    - the outcome of every [fetch] (and of reading the body of its response)
      is an argument of the function that awaits it;
    - the DOM, the location, the session history, the console and the file
      system are fields of an explicit world that every function threads;
    - a JavaScript exception is the [Rejected] result of a computation, and
      [try { } catch { }] is the combinator [try_catch].

    Manifest entries have the shape the sources declare for them
    ([NavItem]: a title and a uri, both strings).  The keys and uris of the
    manifest, the [id] query parameter, the arguments of the script and the
    outcome of every request are arbitrary strings and outcomes; what the
    platform makes of an address or of a file path ([new URL], [path.join]
    with [writeFileSync]) is a parameter. *)

From Stdlib Require Import String Ascii List Bool.
From Stdlib Require Import DecimalString.
Import ListNotations.
Open Scope string_scope.

(* ================================================================== *)
(** * JavaScript values shared by both programs                        *)
(* ================================================================== *)

(** A thrown value.  Both programs only ask of it
    [error instanceof Error ? error.message : '未知错误']. *)
Inductive JsThrown : Type :=
| JsError (message : string)
| JsNonError.

Definition message_or_unknown (e : JsThrown) : string :=
  match e with
  | JsError m => m
  | JsNonError => "未知错误"
  end.

(** A settled promise, and also the result of a synchronous call that may
    throw. *)
Inductive Settled (A : Type) : Type :=
| Fulfilled (a : A)
| Rejected (e : JsThrown).
Arguments Fulfilled {A} a.
Arguments Rejected {A} e.

(** [NavItem] and [NavData] (a JSON object: own properties in enumeration
    order). *)
Record NavItem : Type := mkNavItem { title : string; uri : string }.

Definition NavData : Type := list (string * NavItem).

(** What a program can observe of a [Response]. [text] and [json] are the
    results of awaiting [response.text()] and [response.json()]. *)
Record Response : Type := mkResponse {
  ok : bool;
  status : nat;
  statusText : string;
  text : Settled string;
  json : Settled NavData
}.

(** [`${n}`] for a non-negative integer. *)
Definition String_of_nat (n : nat) : string :=
  NilZero.string_of_uint (Nat.to_uint n).

(** The double quote and the line feed of the template literals. *)
Definition dquote : string := String (ascii_of_nat 34) EmptyString.
Definition newline : string := String (ascii_of_nat 10) EmptyString.

(** [new Error(`HTTP ${response.status}: ${response.statusText}`)] *)
Definition http_error (r : Response) : JsThrown :=
  JsError ("HTTP " ++ String_of_nat (status r) ++ ": " ++ statusText r).

(** [export const NAV_DATA_URL] of [shared.js]. *)
Definition NAV_DATA_URL : string :=
  "https://gist.githubusercontent.com/zhmushan/6c8d631247912fe816530c48237757f0/raw/nav_data.json".

(** Own-property lookup in a JSON object. *)
Fixpoint own_property (k : string) (o : NavData) : option NavItem :=
  match o with
  | [] => None
  | (k', v) :: o' => if String.eqb k' k then Some v else own_property k o'
  end.

(** [Object.keys] and [Object.entries]. *)
Definition Object_keys (o : NavData) : list string := map fst o.
Definition Object_entries (o : NavData) : list (string * NavItem) := o.

(** [a.includes(x)] on an array of strings. *)
Definition includes (x : string) (a : list string) : bool :=
  existsb (String.eqb x) a.

(** A state-and-exception monad over a world [W]. *)
Module Js.

Definition M (W A : Type) : Type := W -> Settled A * W.

Definition ret {W A} (a : A) : M W A := fun w => (Fulfilled a, w).

Definition throw {W A} (e : JsThrown) : M W A := fun w => (Rejected e, w).

Definition bind {W A B} (m : M W A) (k : A -> M W B) : M W B :=
  fun w =>
    match m w with
    | (Fulfilled a, w') => k a w'
    | (Rejected e, w') => (Rejected e, w')
    end.

(** [try { m } catch (error) { h error }] *)
Definition try_catch {W A} (m : M W A) (h : JsThrown -> M W A) : M W A :=
  fun w =>
    match m w with
    | (Fulfilled a, w') => (Fulfilled a, w')
    | (Rejected e, w') => h e w'
    end.

(** [await p] for a promise that has settled as [p]. *)
Definition await {W A} (p : Settled A) : M W A :=
  match p with
  | Fulfilled a => ret a
  | Rejected e => throw e
  end.

Definition get {W} : M W W := fun w => (Fulfilled w, w).

Definition modify {W} (f : W -> W) : M W unit := fun w => (Fulfilled tt, f w).

(** [for (const x of xs) { body x }] *)
Fixpoint for_of {W A} (xs : list A) (body : A -> M W unit) : M W unit :=
  match xs with
  | [] => ret tt
  | x :: xs' => bind (body x) (fun _ => for_of xs' body)
  end.

Definition exec {W A} (m : M W A) (w : W) : W := snd (m w).
Definition result {W A} (m : M W A) (w : W) : Settled A := fst (m w).

End Js.

Notation "x <- m ;; k" := (Js.bind m (fun x => k))
  (at level 61, m at next level, right associativity).
Notation "m ;; k" := (Js.bind m (fun _ => k))
  (at level 61, right associativity).

(* ================================================================== *)
(** * index.js: the navigation and content controller                  *)
(* ================================================================== *)

Module Controller.

(** ** State, DOM and browser *)

(** [const state] (typedef [AppState]). *)
Record AppState : Type := mkAppState {
  navData : NavData;
  activeId : option string;   (* string | null *)
  currentHtml : string;
  currentTitle : string
}.

Definition state0 : AppState :=
  {| navData := []; activeId := None;
     currentHtml := EmptyString; currentTitle := EmptyString |}.

(** An element made by [createNavItemElement]: its [data-id], [href] and
    text, whether its class list holds [nav-item--active] and whether it
    carries [aria-current="page"]. *)
Record NavElement : Type := mkNavElement {
  data_id : string;
  href : string;
  textContent : string;
  active : bool;
  aria_current : bool
}.

Record Iframe : Type := mkIframe { className : string; srcdoc : string }.

(** The part of the document the controller reads and writes:
    [#nav-container] with its [.nav-item] children and [#main-content] with
    its [iframe], each of which may be missing. *)
Record Document : Type := mkDocument {
  nav_container : option (list NavElement);
  main_content : option (option Iframe)
}.

(** A query string as [URLSearchParams] sees it. *)
Definition Query : Type := list (string * string).

(** [location] / a parsed [URL]: the query is kept apart from the rest. *)
Record Location : Type := mkLocation {
  hostname : string;
  rest_of_href : string;
  search : Query
}.

(** An entry made by [history.pushState({ id }, '', url)]. *)
Record HistoryEntry : Type := mkHistoryEntry {
  entry_id : string;
  entry_url : Location
}.

Inductive Level : Type := LOG | WARN | ERROR.

(** A console call: level, message, and the error object passed along. *)
Record LogEntry : Type := mkLogEntry {
  level : Level;
  line : string;
  thrown : option JsThrown
}.

Record World : Type := mkWorld {
  app : AppState;
  document : Document;
  location : Location;
  history : list HistoryEntry;      (* pushed entries, oldest first *)
  console : list LogEntry;          (* oldest first *)
  requests : list string;           (* urls given to fetch, oldest first *)
  popstate_listener : bool;         (* window.addEventListener('popstate') *)
  unhandled : list JsThrown         (* rejections of calls nobody awaits *)
}.

Definition set_app (f : AppState -> AppState) (w : World) : World :=
  mkWorld (f (app w)) (document w) (location w) (history w) (console w)
          (requests w) (popstate_listener w) (unhandled w).
Definition set_document (f : Document -> Document) (w : World) : World :=
  mkWorld (app w) (f (document w)) (location w) (history w) (console w)
          (requests w) (popstate_listener w) (unhandled w).
Definition set_location (l : Location) (w : World) : World :=
  mkWorld (app w) (document w) l (history w) (console w)
          (requests w) (popstate_listener w) (unhandled w).
Definition push_history (e : HistoryEntry) (w : World) : World :=
  mkWorld (app w) (document w) (location w) (history w ++ [e]) (console w)
          (requests w) (popstate_listener w) (unhandled w).
Definition push_console (e : LogEntry) (w : World) : World :=
  mkWorld (app w) (document w) (location w) (history w) (console w ++ [e])
          (requests w) (popstate_listener w) (unhandled w).
Definition push_request (u : string) (w : World) : World :=
  mkWorld (app w) (document w) (location w) (history w) (console w)
          (requests w ++ [u]) (popstate_listener w) (unhandled w).
Definition set_popstate_listener (w : World) : World :=
  mkWorld (app w) (document w) (location w) (history w) (console w)
          (requests w) true (unhandled w).
Definition push_unhandled (e : JsThrown) (w : World) : World :=
  mkWorld (app w) (document w) (location w) (history w) (console w)
          (requests w) (popstate_listener w) (unhandled w ++ [e]).

Definition M : Type -> Type := Js.M World.

Definition console_log (s : string) : M unit :=
  Js.modify (push_console (mkLogEntry LOG s None)).
Definition console_warn (s : string) : M unit :=
  Js.modify (push_console (mkLogEntry WARN s None)).
Definition console_error (s : string) (e : option JsThrown) : M unit :=
  Js.modify (push_console (mkLogEntry ERROR s e)).

(** [fetch(url)]: the request is made; the promise settles as [o]. *)
Definition fetch (url : string) (o : Settled Response) : M Response :=
  Js.modify (push_request url) ;; Js.await o.

(** ** Property access on the manifest object

    [navData[id]] on an object made by [JSON.parse] finds an own property,
    or else a property of [Object.prototype]. *)
Inductive JsProperty : Type :=
| Undefined
| Own (item : NavItem)
| Inherited (name : string).

Definition Object_prototype : list string :=
  [ "constructor"; "__proto__"; "hasOwnProperty"; "isPrototypeOf";
    "propertyIsEnumerable"; "toLocaleString"; "toString"; "valueOf";
    "__defineGetter__"; "__defineSetter__"; "__lookupGetter__";
    "__lookupSetter__" ].

Definition property (o : NavData) (k : string) : JsProperty :=
  match own_property k o with
  | Some item => Own item
  | None => if includes k Object_prototype then Inherited k else Undefined
  end.

(** Truthiness of a looked-up property (an object or a function is truthy)
    and of a [string | null]. *)
Definition truthy (p : JsProperty) : bool :=
  match p with
  | Undefined => false
  | Own _ | Inherited _ => true
  end.

Definition truthy_string (s : option string) : bool :=
  match s with
  | Some s => negb (String.eqb s EmptyString)
  | None => false
  end.

(** [item.uri]: [undefined] on what [Object.prototype] provides. *)
Definition uri_of (p : JsProperty) : option string :=
  match p with
  | Own item => Some (uri item)
  | Undefined | Inherited _ => None
  end.

(** ** URLSearchParams *)

Fixpoint searchParams_get (name : string) (q : Query) : option string :=
  match q with
  | [] => None
  | (n, v) :: q' => if String.eqb n name then Some v else searchParams_get name q'
  end.

Definition searchParams_delete (name : string) (q : Query) : Query :=
  filter (fun nv => negb (String.eqb (fst nv) name)) q.

(** [set]: the first pair of that name takes the value and the others go; a
    new pair is appended when there is none. *)
Fixpoint searchParams_set (name value : string) (q : Query) : Query :=
  match q with
  | [] => [(name, value)]
  | (n, v) :: q' =>
      if String.eqb n name then (n, value) :: searchParams_delete name q'
      else (n, v) :: searchParams_set name value q'
  end.

(** ** DOM element access *)

Definition getNavContainer : M (list NavElement) :=
  w <- Js.get ;;
  match nav_container (document w) with
  | Some el => Js.ret el
  | None => Js.throw (JsError "导航容器元素不存在")
  end.

Definition getMainContent : M (option Iframe) :=
  w <- Js.get ;;
  match main_content (document w) with
  | Some el => Js.ret el
  | None => Js.throw (JsError "主内容容器元素不存在")
  end.

(** ** loadNavData *)

Definition isDev (w : World) : bool :=
  String.eqb (hostname (location w)) "localhost"
  || String.eqb (hostname (location w)) "127.0.0.1".

(** The development branch; [None] when control falls through to the remote
    request. *)
Definition loadNavData_local (local : Settled Response) : M (option NavData) :=
  Js.try_catch
    (response <- fetch "./nav_data.json" local ;;
     if ok response then
       data <- Js.await (json response) ;;
       console_log "使用本地 nav_data.json" ;;
       Js.ret (Some data)
     else Js.ret None)
    (fun _ =>
       console_warn "本地 nav_data.json 加载失败，尝试远程资源" ;;
       Js.ret None).

Definition loadNavData_remote (remote : Settled Response) : M NavData :=
  Js.try_catch
    (response <- fetch NAV_DATA_URL remote ;;
     (if negb (ok response) then Js.throw (http_error response) else Js.ret tt) ;;
     data <- Js.await (json response) ;;
     console_log "使用远程 nav_data.json" ;;
     Js.ret data)
    (fun error =>
       console_error "加载导航数据失败:" (Some error) ;;
       Js.ret []).

Definition loadNavData (local remote : Settled Response) : M NavData :=
  w <- Js.get ;;
  found <- (if isDev w then loadNavData_local local else Js.ret None) ;;
  match found with
  | Some data => Js.ret data
  | None => loadNavData_remote remote
  end.

(** ** URL parameter *)

Definition getIdFromUrl : M (option string) :=
  w <- Js.get ;;
  Js.ret (searchParams_get "id" (search (location w))).

Definition updateUrlId (id : string) : M unit :=
  w <- Js.get ;;
  let url := mkLocation (hostname (location w)) (rest_of_href (location w))
                        (searchParams_set "id" id (search (location w))) in
  Js.modify (fun w => set_location url (push_history (mkHistoryEntry id url) w)).

(** ** Rendering *)

Definition createNavItemElement (id : string) (item : NavItem) : NavElement :=
  {| data_id := id; href := "?id=" ++ id; textContent := title item;
     active := false; aria_current := false |}.

Definition renderNav (navData : NavData) : M unit :=
  _ <- getNavContainer ;;
  Js.modify (set_document (fun d =>
    mkDocument
      (Some (map (fun e => createNavItemElement (fst e) (snd e))
                 (Object_entries navData)))
      (main_content d))).

Definition mark (activeId : string) (item : NavElement) : NavElement :=
  if String.eqb (data_id item) activeId
  then mkNavElement (data_id item) (href item) (textContent item) true true
  else mkNavElement (data_id item) (href item) (textContent item) false false.

Definition updateNavActiveState (activeId : string) : M unit :=
  Js.modify (set_document (fun d =>
    mkDocument (option_map (map (mark activeId)) (nav_container d))
               (main_content d))).

(** ** Content loading *)

Section WithPlatform.

(** [new URL(uri, window.location.href).href], the platform's resolution of
    a relative address against the current page; [None] when [new URL]
    throws its [TypeError] on an address it cannot parse. *)
Variable URL_href : string -> Location -> option string.

(** [uri.startsWith(p)] *)
Definition startsWith (p uri : string) : bool := String.prefix p uri.

(** [resolveUri(uri)]; calling [startsWith] on [undefined] is a [TypeError],
    and so is what [new URL] throws. *)
Definition resolveUri (uri : option string) : M string :=
  match uri with
  | None =>
      Js.throw (JsError "Cannot read properties of undefined (reading 'startsWith')")
  | Some uri =>
      if startsWith "http://" uri || startsWith "https://" uri then Js.ret uri
      else
        w <- Js.get ;;
        match URL_href uri (location w) with
        | Some href => Js.ret href
        | None => Js.throw (JsError "Invalid URL")
        end
  end.

(** The text every inline error message carries in front of the reason. *)
Definition error_indicator : string := "⚠️ 加载失败: ".

(** The template literal assigned to [iframe.srcdoc] in the [catch] block. *)
Definition error_page (error : JsThrown) : string :=
  "<body style=" ++ dquote
    ++ "font-family: sans-serif; padding: 2rem; color: #666;" ++ dquote ++ ">"
    ++ newline
    ++ "      <p>" ++ error_indicator ++ message_or_unknown error ++ "</p>"
    ++ newline
    ++ "    </body>".

(** [iframe.srcdoc = html] on the frame of [#main-content]. *)
Definition set_srcdoc (html : string) : M unit :=
  Js.modify (set_document (fun d =>
    match main_content d with
    | Some (Some f) =>
        mkDocument (nav_container d) (Some (Some (mkIframe (className f) html)))
    | _ => d
    end)).

Definition set_cached (html title_ : string) : M unit :=
  Js.modify (set_app (fun s => mkAppState (navData s) (activeId s) html title_)).

Definition set_activeId (id : string) : M unit :=
  Js.modify (set_app (fun s =>
    mkAppState (navData s) (Some id) (currentHtml s) (currentTitle s))).

(** A call of [loadContentById] suspended at [await fetch(url)]. *)
Record Pending : Type := mkPending { pending_id : string; pending_url : string }.

(** [loadContentById] up to its first [await]: the lookup, the containers,
    the frame and the request.  [None]: it returned at the guard. *)
Definition loadContentById_begin (id : string) : M (option Pending) :=
  w <- Js.get ;;
  let item := property (navData (app w)) id in
  if negb (truthy item) then
    console_error ("找不到导航项: " ++ id) None ;;
    Js.ret None
  else
    mainContent <- getMainContent ;;
    url <- resolveUri (uri_of item) ;;
    (match mainContent with
     | Some _ => Js.ret tt
     | None =>
         Js.modify (set_document (fun d =>
           mkDocument (nav_container d)
                      (Some (Some (mkIframe "content-frame" EmptyString)))))
     end) ;;
    Js.modify (push_request url) ;;
    Js.ret (Some (mkPending id url)).

(** [loadContentById] from the moment its request has settled as [o]: the
    rest of the [try], the [catch], and the three statements after them. *)
Definition loadContentById_resume (p : Pending) (o : Settled Response) : M unit :=
  let id := pending_id p in
  Js.try_catch
    (response <- Js.await o ;;
     (if negb (ok response) then Js.throw (http_error response) else Js.ret tt) ;;
     html <- Js.await (text response) ;;
     set_srcdoc html ;;
     set_cached html (id ++ ".html"))
    (fun error =>
       console_error "加载内容失败:" (Some error) ;;
       set_srcdoc (error_page error) ;;
       set_cached EmptyString EmptyString) ;;
  set_activeId id ;;
  updateNavActiveState id ;;
  updateUrlId id.

(** [loadContentById(id)] run to completion, its request settling as [o]. *)
Definition loadContentById (id : string) (o : Settled Response) : M unit :=
  p <- loadContentById_begin id ;;
  match p with
  | Some p => loadContentById_resume p o
  | None => Js.ret tt
  end.

(** A call of an [async] function that the caller does not await: what it
    throws becomes an unhandled rejection, and the caller goes on. *)
Definition call_async (m : M (option Pending)) : M (option Pending) :=
  Js.try_catch m (fun e => Js.modify (push_unhandled e) ;; Js.ret None).

(** ** Event handlers *)

Definition handleNavClick (id : string) : M (option Pending) :=
  w <- Js.get ;;
  match activeId (app w) with
  | Some a => if String.eqb id a then Js.ret None
              else call_async (loadContentById_begin id)
  | None => call_async (loadContentById_begin id)
  end.

(** The [popstate] listener; [st] is [e.state?.id]. *)
Definition onPopstate (st : option string) : M (option Pending) :=
  fromUrl <- getIdFromUrl ;;
  let id := if truthy_string st then st else fromUrl in
  w <- Js.get ;;
  match id with
  | Some id' =>
      if truthy_string id && truthy (property (navData (app w)) id')
      then call_async (loadContentById_begin id')
      else Js.ret None
  | None => Js.ret None
  end.

(** ** Initialisation *)

(** [(urlId && navData[urlId]) ? urlId : ids[0]] *)
Definition initialId (navData : NavData) (urlId : option string) (first : string)
  : string :=
  match urlId with
  | Some u => if truthy_string urlId && truthy (property navData u) then u else first
  | None => first
  end.

(** [init()], from the settled manifest requests to the end of its body.
    The download button and the mobile menu only attach listeners that touch
    nothing of the modelled world. *)
Definition init (local remote : Settled Response) : M (option Pending) :=
  Js.try_catch
    (navData <- loadNavData local remote ;;
     Js.modify (set_app (fun s =>
       mkAppState navData (activeId s) (currentHtml s) (currentTitle s))) ;;
     renderNav navData ;;
     match Object_keys navData with
     | [] => Js.ret None
     | first :: _ =>
         urlId <- getIdFromUrl ;;
         p <- call_async (loadContentById_begin (initialId navData urlId first)) ;;
         Js.modify set_popstate_listener ;;
         console_log "应用初始化完成" ;;
         Js.ret p
     end)
    (fun error =>
       console_error "应用初始化失败:" (Some error) ;;
       Js.ret None).

(** ** The page session: the world and the calls awaiting a response *)

Record Session : Type := mkSession { world : World; inflight : list Pending }.

Definition world0 (doc : Document) (loc : Location) : World :=
  {| app := state0; document := doc; location := loc; history := [];
     console := []; requests := []; popstate_listener := false;
     unhandled := [] |}.

(** Run a handler and keep the call it may have left suspended. *)
Definition dispatch (m : M (option Pending)) (s : Session) : Session :=
  match m (world s) with
  | (Fulfilled (Some p), w) => mkSession w (inflight s ++ [p])
  | (_, w) => mkSession w (inflight s)
  end.

(** The module body: [init()] on a freshly loaded page. *)
Definition start (doc : Document) (loc : Location)
           (local remote : Settled Response) : Session :=
  dispatch (init local remote) (mkSession (world0 doc loc) []).

Inductive Event : Type :=
| Click (id : string)                     (* click, Enter or Space on an entry *)
| Popstate (st : option string) (loc : Location)  (* history traversal *)
| Settle (k : nat) (o : Settled Response). (* the k-th awaited request settles *)

Fixpoint remove_nth {A} (k : nat) (l : list A) : list A :=
  match k, l with
  | _, [] => []
  | O, _ :: l' => l'
  | S k', x :: l' => x :: remove_nth k' l'
  end.

Definition step (s : Session) (e : Event) : Session :=
  match e with
  | Click id => dispatch (handleNavClick id) s
  | Popstate st loc =>
      let s' := mkSession (set_location loc (world s)) (inflight s) in
      if popstate_listener (world s) then dispatch (onPopstate st) s' else s'
  | Settle k o =>
      match nth_error (inflight s) k with
      | Some p =>
          mkSession (Js.exec (loadContentById_resume p o) (world s))
                    (remove_nth k (inflight s))
      | None => s
      end
  end.

Definition run (s : Session) (es : list Event) : Session := fold_left step es s.

End WithPlatform.

(* ------------------------------------------------------------------ *)
(** ** Vocabulary of the properties *)

(** ** How a page request can fail *)

(** The request rejects, the status is not OK, or the body cannot be read:
    the three ways into the [catch] block of [loadContentById]. *)
Definition page_fetch_fails (o : Settled Response) : bool :=
  match o with
  | Rejected _ => true
  | Fulfilled r =>
      negb (ok r) || match text r with Rejected _ => true | Fulfilled _ => false end
  end.

(** The value caught in that case. *)
Definition page_failure (o : Settled Response) : JsThrown :=
  match o with
  | Rejected e => e
  | Fulfilled r =>
      if negb (ok r) then http_error r
      else match text r with Rejected e => e | Fulfilled _ => JsNonError end
  end.

(** [s] occurs in [t]. *)
Definition contains (s t : string) : Prop :=
  exists a b, t = a ++ s ++ b.

(** The [.nav-item] elements of a document. *)
Definition nav_items (d : Document) : list NavElement :=
  match nav_container d with
  | Some els => els
  | None => []
  end.

(** The request rejects, the status is not OK, or the body is not JSON. *)
Definition manifest_fetch_fails (o : Settled Response) : bool :=
  match o with
  | Rejected _ => true
  | Fulfilled r =>
      negb (ok r) || match json r with Rejected _ => true | Fulfilled _ => false end
  end.

(** The value caught by the remote branch in that case. *)
Definition manifest_failure (o : Settled Response) : JsThrown :=
  match o with
  | Rejected e => e
  | Fulfilled r =>
      if negb (ok r) then http_error r
      else match json r with Rejected e => e | Fulfilled _ => JsNonError end
  end.

(** The keys of the manifest held by [state]. *)
Definition known (w : World) (id : string) : Prop :=
  In id (Object_keys (navData (app w))).

(** The active key and every suspended call name a key of the manifest. *)
Definition session_ok (s : Session) : Prop :=
  (forall a, activeId (app (world s)) = Some a -> known (world s) a)
  /\ Forall (fun p => known (world s) (pending_id p)) (inflight s).

(** What [resolveUri] returns for a uri; [None] when it throws. *)
Definition resolved (URL_href : string -> Location -> option string)
           (uri : string) (loc : Location) : option string :=
  if startsWith "http://" uri || startsWith "https://" uri then Some uri
  else URL_href uri loc.

(** [id] is a key of the manifest whose uri [resolveUri] resolves. *)
Definition resolves (URL_href : string -> Location -> option string)
           (navData : NavData) (loc : Location) (id : string) : Prop :=
  exists item url,
    own_property id navData = Some item
    /\ resolved URL_href (uri item) loc = Some url.

(** The selection routine read to the letter: for every key of [navData],
    with both containers in the document and whatever the page request
    gives, the key becomes the active one. *)
Definition selection_to_the_letter
    (URL_href : string -> Location -> option string) : Prop :=
  forall (w : World) (id : string) (item : NavItem)
         (els : list NavElement) (frame : option Iframe)
         (o : Settled Response),
    own_property id (navData (app w)) = Some item ->
    nav_container (document w) = Some els ->
    main_content (document w) = Some frame ->
    activeId (app (Js.exec (loadContentById URL_href id o) w)) = Some id.

(** [init] preselects [id]: it leaves exactly the call
    [loadContentById(id)] awaiting its page. *)
Definition preselects (s : Session) (id : string) : Prop :=
  exists url, inflight s = [mkPending id url].

(** The initialisation clause of the URL contract read to the letter: an
    [id] parameter that is a key of the manifest is preselected, an absent
    or unknown one gives the first key. *)
Definition init_contract_to_the_letter
    (URL_href : string -> Location -> option string) : Prop :=
  forall (doc : Document) (loc : Location) (local remote : Settled Response)
         (first : string) (item0 : NavItem) (rest : NavData)
         (els : list NavElement) (frame : option Iframe),
    let nd := (first, item0) :: rest in
    let urlId := searchParams_get "id" (search loc) in
    let s := start URL_href doc loc local remote in
    Js.result (loadNavData local remote) (world0 doc loc) = Fulfilled nd ->
    nav_container doc = Some els ->
    main_content doc = Some frame ->
    (forall u, urlId = Some u -> In u (Object_keys nd) -> preselects s u)
    /\ (urlId = None \/ (exists u, urlId = Some u /\ ~ In u (Object_keys nd)) ->
        preselects s first).

(* ------------------------------------------------------------------ *)
(** ** Sample inputs *)

(** A resolution of relative addresses that appends them to the page, and
    rejects [//[] as [new URL] does (a host that opens a bracket and never
    closes it). *)
Definition sample_URL_href (uri : string) (loc : Location) : option string :=
  if String.eqb uri "//[" then None else Some (rest_of_href loc ++ uri).

Definition sample_item : NavItem :=
  mkNavItem "Home" "https://example.org/pages/home.html".

Definition sample_navData : NavData := [("home", sample_item)].

(** A manifest with an entry under the empty key. *)
Definition navData_with_empty_key : NavData :=
  [("home", sample_item);
   (EmptyString, mkNavItem "Untitled" "pages/untitled.html")].

(** A manifest whose only entry has an address [new URL] cannot parse. *)
Definition unparseable_navData : NavData := [("home", mkNavItem "Home" "//[")].

(** Both containers, no entry rendered yet, no frame yet. *)
Definition sample_document : Document := mkDocument (Some []) (Some None).

Definition sample_location (q : Query) : Location :=
  mkLocation "example.org" "https://example.org/" q.

Definition ok_response (nd : NavData) : Settled Response :=
  Fulfilled (mkResponse true 200 "OK" (Fulfilled "<p>home</p>") (Fulfilled nd)).

Definition failed_request : Settled Response :=
  Rejected (JsError "Failed to fetch").

(** A page session whose manifest is [sample_navData]. *)
Definition sample_world (active : option string) : World :=
  {| app := mkAppState sample_navData active EmptyString EmptyString;
     document := sample_document;
     location := sample_location [];
     history := []; console := []; requests := [];
     popstate_listener := true; unhandled := [] |}.

(* ------------------------------------------------------------------ *)
(** ** handleDownload

    The handler reads [state] and writes nothing of the modelled world; what
    it does to the page and to the disk is the list of effects it returns,
    in order. *)

(** An error of the file picker API: [error.name] and [error.message]. *)
Record DomError : Type := mkDomError { error_name : string; error_message : string }.

(** How an awaited call of the file picker API settles. *)
Inductive Attempt : Type :=
| Succeeds
| Fails (e : DomError).

(** [window]: whether ['showSaveFilePicker' in window], and how
    [showSaveFilePicker], [createWritable], [write] and [close] settle. *)
Record SavePlatform : Type := mkSavePlatform {
  has_showSaveFilePicker : bool;
  showSaveFilePicker : Attempt;
  createWritable : Attempt;
  write : Attempt;
  close : Attempt
}.

Inductive DownloadEffect : Type :=
| Alert (message : string)
| SaveDialog (suggestedName : string)          (* showSaveFilePicker called *)
| Written (suggestedName content : string)      (* writable.write(blob) done *)
| Closed                                        (* writable.close() done *)
| AnchorDownload (download content : string)    (* link.click() *)
| ConsoleError (message : string) (e : DomError).

(** [state.currentTitle || 'page.html'] *)
Definition fileName (s : AppState) : string :=
  if String.eqb (currentTitle s) EmptyString then "page.html" else currentTitle s.

(** The [catch] block of [handleDownload]. *)
Definition download_catch (e : DomError) : list DownloadEffect :=
  if String.eqb (error_name e) "AbortError" then []
  else [ConsoleError "下载失败:" e].

Definition handleDownload (s : AppState) (p : SavePlatform) : list DownloadEffect :=
  if String.eqb (currentHtml s) EmptyString then [Alert "没有可下载的内容"]
  else if has_showSaveFilePicker p then
    SaveDialog (fileName s) ::
    match showSaveFilePicker p with
    | Fails e => download_catch e
    | Succeeds =>
        match createWritable p with
        | Fails e => download_catch e
        | Succeeds =>
            match write p with
            | Fails e => download_catch e
            | Succeeds =>
                Written (fileName s) (currentHtml s) ::
                match close p with
                | Fails e => download_catch e
                | Succeeds => [Closed]
                end
            end
        end
    end
  else [AnchorDownload (fileName s) (currentHtml s)].

(* ------------------------------------------------------------------ *)
(** ** setupMobileMenu *)

(** The elements the menu needs: [#menu-btn], [#sidebar] with whether its
    class list holds [open], [#sidebar-overlay] with whether it holds
    [active], and [#nav-container]. *)
Record MenuDom : Type := mkMenuDom {
  has_menu_btn : bool;
  sidebar_open : option bool;
  overlay_active : option bool;
  has_nav_container : bool
}.

(** The click listeners [setupMobileMenu] attaches. *)
Record MenuListeners : Type := mkMenuListeners {
  on_menu_btn : bool;
  on_overlay : bool;
  on_nav_container : bool
}.

Definition setupMobileMenu (d : MenuDom) : MenuListeners :=
  match has_menu_btn d, sidebar_open d, overlay_active d with
  | true, Some _, Some _ => mkMenuListeners true true (has_nav_container d)
  | _, _, _ => mkMenuListeners false false false
  end.

Inductive MenuEvent : Type :=
| MenuBtnClick
| OverlayClick
| NavContainerClick.

(** [classList.toggle] and [classList.remove] on both elements. *)
Definition menu_toggle (d : MenuDom) : MenuDom :=
  mkMenuDom (has_menu_btn d) (option_map negb (sidebar_open d))
            (option_map negb (overlay_active d)) (has_nav_container d).

Definition menu_close (d : MenuDom) : MenuDom :=
  mkMenuDom (has_menu_btn d) (option_map (fun _ => false) (sidebar_open d))
            (option_map (fun _ => false) (overlay_active d)) (has_nav_container d).

(** A click reaches the listener attached for it, if any. *)
Definition menu_step (l : MenuListeners) (d : MenuDom) (e : MenuEvent) : MenuDom :=
  match e with
  | MenuBtnClick => if on_menu_btn l then menu_toggle d else d
  | OverlayClick => if on_overlay l then menu_close d else d
  | NavContainerClick => if on_nav_container l then menu_close d else d
  end.

Definition menu_run (d : MenuDom) (es : list MenuEvent) : MenuDom :=
  fold_left (menu_step (setupMobileMenu d)) es d.

(* ------------------------------------------------------------------ *)
(** ** More vocabulary *)

(** The last element of a list. *)
Definition last_entry {A} (l : list A) : option A :=
  match rev l with
  | [] => None
  | x :: _ => Some x
  end.

(** The request settles with an OK response whose body is [html]. *)
Definition page_arrives (o : Settled Response) (html : string) : Prop :=
  exists r, o = Fulfilled r /\ ok r = true /\ text r = Fulfilled html.

(** No effect of a download is a console error. *)
Definition silent (es : list DownloadEffect) : Prop :=
  forall m e, ~ In (ConsoleError m e) es.

(** Every step of the file picker that fails was aborted by the user. *)
Definition only_aborts (p : SavePlatform) : Prop :=
  forall a, In a [showSaveFilePicker p; createWritable p; write p; close p] ->
            match a with
            | Succeeds => True
            | Fails e => error_name e = "AbortError"
            end.

(** What of the world outlives a handler that only starts a request:
    [state], the entries of the navigation, the history and the listener. *)
Definition view (w : World)
  : AppState * option (list NavElement) * list HistoryEntry * bool :=
  (app w, nav_container (document w), history w, popstate_listener w).

(** A computation that leaves the view as it is. *)
Definition keeps_view {A} (m : M A) : Prop :=
  forall w, view (Js.exec m w) = view w.

(** [state], the highlighting and the history agree:
    - the active key is the key of the last history entry pushed;
    - an entry is marked active, and carries [aria-current], exactly when
      its [data-id] is the active key;
    - the entries of a navigation that exists are those of the manifest;
    - the cache is empty, or its title is the active key with [.html]. *)
Definition coherent (w : World) : Prop :=
  activeId (app w) = option_map entry_id (last_entry (history w))
  /\ (forall el, In el (nav_items (document w)) ->
        aria_current el = active el
        /\ (active el = true <-> activeId (app w) = Some (data_id el)))
  /\ (nav_container (document w) <> None ->
      map data_id (nav_items (document w)) = Object_keys (navData (app w)))
  /\ ((currentHtml (app w) = EmptyString /\ currentTitle (app w) = EmptyString)
      \/ exists a, activeId (app w) = Some a
                   /\ currentTitle (app w) = a ++ ".html").

(* ------------------------------------------------------------------ *)
(** ** More sample inputs *)

Definition two_pages : NavData :=
  [("a", mkNavItem "A" "a.html"); ("b", mkNavItem "B" "b.html")].

(** A page session over [two_pages] whose navigation has been rendered. *)
Definition rendered_world : World :=
  Js.exec (renderNav two_pages)
          (set_app (fun _ => mkAppState two_pages None EmptyString EmptyString)
                   (sample_world None)).

(** A platform with a file picker whose dialog the user dismisses. *)
Definition dismissing_platform : SavePlatform :=
  mkSavePlatform true
    (Fails (mkDomError "AbortError" "The user aborted a request."))
    Succeeds Succeeds Succeeds.

(** The menu elements of a page whose sidebar is closed. *)
Definition closed_menu : MenuDom := mkMenuDom true (Some false) (Some false) true.

End Controller.

(* ================================================================== *)
(** * dev.mjs: the sync-and-serve script                               *)
(* ================================================================== *)

Module DevScript.

(** The two paths of [PATHS]: the manifest file, and the pages directory
    with its files by name ([None]: it does not exist); and the files
    written anywhere else, by path. *)
Record FileSystem : Type := mkFileSystem {
  nav_data_json : option string;
  pages : option (list (string * string));
  elsewhere : list (string * string)
}.

(** Where [join(PATHS.pages, filename)] points once the pages directory
    has been made afresh: at a file of that directory, at a file outside it
    (a name that climbs out with [..]), or at nothing that can be written,
    [writeFileSync] then throwing an error with the given message (a name
    with a separator that does not climb out points into a directory that
    does not exist). *)
Inductive Place : Type :=
| InPages (name : string)
| OutsidePages (path : string)
| Unwritable (message : string).

(** A [spawn(command, args, ...)] call. *)
Record Spawn : Type := mkSpawn { command : string; arguments : list string }.

Record Process : Type := mkProcess {
  fs : FileSystem;
  stdout : list string;      (* console.log lines, oldest first *)
  fetched : list string;     (* urls given to fetch, oldest first *)
  spawned : list Spawn       (* calls of spawn, oldest first *)
}.

Definition set_fs (f : FileSystem -> FileSystem) (w : Process) : Process :=
  mkProcess (f (fs w)) (stdout w) (fetched w) (spawned w).
Definition push_stdout (s : string) (w : Process) : Process :=
  mkProcess (fs w) (stdout w ++ [s]) (fetched w) (spawned w).
Definition push_fetched (u : string) (w : Process) : Process :=
  mkProcess (fs w) (stdout w) (fetched w ++ [u]) (spawned w).
Definition push_spawned (c : Spawn) (w : Process) : Process :=
  mkProcess (fs w) (stdout w) (fetched w) (spawned w ++ [c]).

Definition M : Type -> Type := Js.M Process.

Definition console_log (s : string) : M unit := Js.modify (push_stdout s).

(** ** log *)

Inductive LogType : Type := info | success | warn | error.

Definition esc : string := String (ascii_of_nat 27) EmptyString.

Definition colors (t : LogType) : string :=
  match t with
  | info => esc ++ "[36m"
  | success => esc ++ "[32m"
  | warn => esc ++ "[33m"
  | error => esc ++ "[31m"
  end.

Definition reset : string := esc ++ "[0m".

Definition prefix (t : LogType) : string :=
  match t with
  | info => "ℹ"
  | success => "✔"
  | warn => "⚠"
  | error => "✖"
  end.

Definition log (message : string) (t : LogType) : M unit :=
  console_log (colors t ++ prefix t ++ " " ++ message ++ reset).

(** ** fetchText *)

Definition fetchText (url : string) (o : Settled Response) : M string :=
  Js.modify (push_fetched url) ;;
  response <- Js.await o ;;
  (if negb (ok response) then Js.throw (http_error response) else Js.ret tt) ;;
  Js.await (text response).

(** ** File system calls *)

Definition existsSync_pages : M bool :=
  w <- Js.get ;;
  Js.ret (match pages (fs w) with Some _ => true | None => false end).

(** [rmSync(PATHS.pages, { recursive: true })] *)
Definition rmSync_pages : M unit :=
  Js.modify (set_fs (fun f => mkFileSystem (nav_data_json f) None (elsewhere f))).

(** [mkdirSync(PATHS.pages, { recursive: true })] keeps a directory that is
    already there. *)
Definition mkdirSync_pages : M unit :=
  Js.modify (set_fs (fun f =>
    mkFileSystem (nav_data_json f)
                 (match pages f with Some d => Some d | None => Some [] end)
                 (elsewhere f))).

(** [writeFileSync(PATHS.navData, text, 'utf-8')] *)
Definition writeFileSync_navData (content : string) : M unit :=
  Js.modify (set_fs (fun f =>
    mkFileSystem (Some content) (pages f) (elsewhere f))).

Fixpoint write_file (name content : string) (d : list (string * string))
  : list (string * string) :=
  match d with
  | [] => [(name, content)]
  | (n, c) :: d' =>
      if String.eqb n name then (n, content) :: d'
      else (n, c) :: write_file name content d'
  end.

Section WithPlatform.

(** The network: how the request for each url settles. *)
Variable net : string -> Settled Response.

(** [JSON.parse] on the manifest text ([Rejected]: a [SyntaxError]). *)
Variable JSON_parse : string -> Settled NavData.

(** [path.join] and the directories of the disk: where a file name given
    to [join(PATHS.pages, filename)] points. *)
Variable locate : string -> Place.

(** [writeFileSync(join(PATHS.pages, filename), content, 'utf-8')]; it
    throws when the directory it points into is missing. *)
Definition writeFileSync_page (filename content : string) : M unit :=
  match locate filename with
  | InPages name =>
      w <- Js.get ;;
      match pages (fs w) with
      | Some d =>
          Js.modify (set_fs (fun f =>
            mkFileSystem (nav_data_json f) (Some (write_file name content d))
                         (elsewhere f)))
      | None => Js.throw (JsError "ENOENT: no such file or directory")
      end
  | OutsidePages path =>
      Js.modify (set_fs (fun f =>
        mkFileSystem (nav_data_json f) (pages f)
                     (write_file path content (elsewhere f))))
  | Unwritable message => Js.throw (JsError message)
  end.

(** ** syncResources *)

(** The body of the [for ... of Object.entries(navData)] loop. *)
Definition syncPage (entry : string * NavItem) : M unit :=
  let key := fst entry in
  let item := snd entry in
  let filename := key ++ ".html" in
  Js.try_catch
    (content <- fetchText (uri item) (net (uri item)) ;;
     writeFileSync_page filename content ;;
     log ("  " ++ filename) success)
    (fun e =>
       log ("  " ++ filename ++ " - 同步失败: " ++ message_or_unknown e) error).

Definition syncPages (navData : NavData) : M unit :=
  Js.for_of (Object_entries navData) syncPage.

Definition syncResources : M unit :=
  log "开始同步远程资源..." info ;;
  log "同步 nav_data.json..." info ;;
  navDataText <- fetchText NAV_DATA_URL (net NAV_DATA_URL) ;;
  writeFileSync_navData navDataText ;;
  log "nav_data.json 同步完成" success ;;
  navData <- Js.await (JSON_parse navDataText) ;;
  there <- existsSync_pages ;;
  (if there then rmSync_pages else Js.ret tt) ;;
  mkdirSync_pages ;;
  log ("同步 " ++ String_of_nat (length (Object_keys navData)) ++ " 个页面...") info ;;
  syncPages navData ;;
  log "资源同步完成！" success.

(** ** startServer *)

(** What becomes of the [spawn] call:
    - [spawn] itself throws, inside the promise's executor;
    - the child emits [error] and, right after it, [close] with the
      negated error number as its code;
    - the child runs and emits [close] with its exit code ([None]: [null],
      killed by a signal). *)
Inductive ServerEvent : Type :=
| SpawnThrows (e : JsThrown)
| SpawnError (message : string) (errno : nat)
| Close (code : option nat).

(** The [close] listener after an [error]: the promise is settled already,
    only its log line is left. *)
Definition on_close_after_error (errno : nat) : M unit :=
  match errno with
  | O => Js.ret tt
  | S _ => log ("服务器退出，代码: -" ++ String_of_nat errno) warn
  end.

Definition startServer (ev : ServerEvent) : M unit :=
  log "启动本地服务器..." info ;;
  Js.modify (push_spawned (mkSpawn "file_server" ["."])) ;;
  match ev with
  | SpawnThrows e => Js.throw e
  | SpawnError m errno =>
      log ("服务器启动失败: " ++ m) error ;;
      log "请确保已安装 Deno 并可使用 file_server 命令" warn ;;
      on_close_after_error errno ;;
      Js.throw (JsError m)
  | Close code =>
      match code with
      | Some (S c) => log ("服务器退出，代码: " ++ String_of_nat (S c)) warn
      | Some O | None => Js.ret tt
      end
  end.

(** ** main

    [argv] is [process.argv]; the value returned is the exit code of the
    process: [1] from [process.exit(1)], [0] when [main] runs to its end. *)
Definition main (argv : list string) (server : ServerEvent) : M nat :=
  let args := skipn 2 argv in
  let syncOnly := includes "--sync" args in
  let serveOnly := includes "--serve" args in
  console_log (newline ++ "🚀 项目启动脚本" ++ newline) ;;
  Js.try_catch
    ((if negb serveOnly then syncResources ;; console_log EmptyString
      else Js.ret tt) ;;
     (if negb syncOnly then startServer server else Js.ret tt) ;;
     Js.ret 0)
    (fun e =>
       log ("执行失败: " ++ message_or_unknown e) error ;;
       Js.ret 1).

End WithPlatform.

(* ------------------------------------------------------------------ *)
(** ** Vocabulary of the properties *)

(** The request rejects, the status is not OK, or the body cannot be read:
    the three ways [fetchText] throws. *)
Definition text_fetch_fails (o : Settled Response) : bool :=
  match o with
  | Rejected _ => true
  | Fulfilled r =>
      negb (ok r) || match text r with Rejected _ => true | Fulfilled _ => false end
  end.

(** The value thrown in that case. *)
Definition text_failure (o : Settled Response) : JsThrown :=
  match o with
  | Rejected e => e
  | Fulfilled r =>
      if negb (ok r) then http_error r
      else match text r with Rejected e => e | Fulfilled _ => JsNonError end
  end.

(** The line [syncResources] logs for a page that could not be synced. *)
Definition failure_line (key : string) (e : JsThrown) : string :=
  colors error ++ prefix error ++ " "
    ++ ("  " ++ (key ++ ".html") ++ " - 同步失败: " ++ message_or_unknown e)
    ++ reset.

(** The line [main] prints first. *)
Definition banner : string := newline ++ "🚀 项目启动脚本" ++ newline.

(** A computation that starts no child process. *)
Definition keeps_spawned {A} (m : M A) : Prop :=
  forall w, spawned (Js.exec m w) = spawned w.

(** A manifest key whose page file [<key>.html] lies directly in the pages
    directory, under that very name. *)
Definition plain_name (locate : string -> Place) (key : string) : Prop :=
  locate (key ++ ".html") = InPages (key ++ ".html").



(* ------------------------------------------------------------------ *)
(** ** Sample inputs *)

(** [{"p1":{"title":"T","uri":"https://x/p1.html"}}] *)
Definition sample_manifest_text : string :=
  "{" ++ dquote ++ "p1" ++ dquote ++ ":{"
    ++ dquote ++ "title" ++ dquote ++ ":" ++ dquote ++ "T" ++ dquote ++ ","
    ++ dquote ++ "uri" ++ dquote ++ ":" ++ dquote ++ "https://x/p1.html" ++ dquote
    ++ "}}".

Definition sample_manifest : NavData := [("p1", mkNavItem "T" "https://x/p1.html")].

Definition sample_JSON_parse (t : string) : Settled NavData :=
  if String.eqb t sample_manifest_text then Fulfilled sample_manifest
  else Rejected (JsError "Unexpected token").

(** A network on which every request rejects. *)
Definition net_down (url : string) : Settled Response :=
  Rejected (JsError "fetch failed").

(** A network that serves the manifest and answers 404 for every page. *)
Definition net_manifest_only (url : string) : Settled Response :=
  if String.eqb url NAV_DATA_URL
  then Fulfilled (mkResponse true 200 "OK" (Fulfilled sample_manifest_text)
                             (Fulfilled sample_manifest))
  else Fulfilled (mkResponse false 404 "Not Found" (Fulfilled EmptyString)
                             (Rejected JsNonError)).

(** A process that has done nothing yet, next to no synced resources. *)
Definition fresh_process : Process :=
  mkProcess (mkFileSystem None None []) [] [] [].

(** Whether a name has a path separator. *)
Fixpoint has_separator (name : string) : bool :=
  match name with
  | EmptyString => false
  | String c rest => Ascii.eqb c "/" || has_separator rest
  end.

(** A disk for the samples: a name without a separator is a file of the
    pages directory; a name that starts with [../] and has no other
    separator is a file next to that directory; any other name points into
    a directory that is not there. *)
Definition sample_locate (name : string) : Place :=
  if negb (has_separator name) then InPages name
  else if String.prefix "../" name
          && negb (has_separator (String.substring 3 (String.length name) name))
       then OutsidePages (String.substring 3 (String.length name) name)
       else Unwritable ("ENOENT: no such file or directory, open 'pages/"
                        ++ name ++ "'").

(* ------------------------------------------------------------------ *)
(** ** More vocabulary *)

(** What [fetchText] returns for a request that settled as [o]; [None]
    when it throws. *)
Definition fetched_text (o : Settled Response) : option string :=
  match o with
  | Rejected _ => None
  | Fulfilled r =>
      if ok r then match text r with Fulfilled t => Some t | Rejected _ => None end
      else None
  end.

(** The files a sync is expected to leave in the pages directory: one
    [<key>.html] per entry whose page could be fetched, in manifest order. *)
Definition synced_files (net : string -> Settled Response) (navData : NavData)
  : list (string * string) :=
  flat_map (fun entry =>
              match fetched_text (net (uri (snd entry))) with
              | Some content => [(fst entry ++ ".html", content)]
              | None => []
              end)
           navData.


(** A network on which the manifest and every page are served. *)
Definition net_up (url : string) : Settled Response :=
  if String.eqb url NAV_DATA_URL
  then Fulfilled (mkResponse true 200 "OK" (Fulfilled sample_manifest_text)
                             (Fulfilled sample_manifest))
  else Fulfilled (mkResponse true 200 "OK" (Fulfilled "<h1>T</h1>")
                             (Rejected JsNonError)).

(** A process next to resources left by an earlier sync. *)
Definition stale_process : Process :=
  mkProcess (mkFileSystem (Some "{}") (Some [("old.html", "<p>old</p>")]) [])
            [] [] [].

End DevScript.

(* ================================================================== *)
(** * Properties of the controller                                     *)
(* ================================================================== *)

Module ControllerFacts.

Import Controller.

(** Unfolding of the monad's combinators. *)
Ltac js :=
  unfold Js.exec, Js.result, Js.bind, Js.ret, Js.throw, Js.try_catch,
    Js.await, Js.get, Js.modify in *;
  simpl in *.

(** ** Running the model *)

Example http_error_404 :
  http_error (mkResponse false 404 "Not Found" (Fulfilled EmptyString)
                         (Rejected JsNonError))
  = JsError "HTTP 404: Not Found".
Proof. reflexivity. Qed.

Example searchParams_set_replaces :
  searchParams_set "id" "b" [("x", "1"); ("id", "a"); ("y", "2"); ("id", "c")]
  = [("x", "1"); ("id", "b"); ("y", "2")].
Proof. reflexivity. Qed.

Example searchParams_set_appends :
  searchParams_set "id" "b" [("x", "1")] = [("x", "1"); ("id", "b")].
Proof. reflexivity. Qed.

Example property_inherited :
  property sample_navData "toString" = Inherited "toString"
  /\ property sample_navData "home" = Own sample_item
  /\ property sample_navData "about" = Undefined.
Proof. repeat split. Qed.

(** A page load: the manifest arrives, "home" is requested, its page
    arrives. *)
Example first_page_load :
  let s0 := start sample_URL_href sample_document (sample_location [])
                  failed_request (ok_response sample_navData) in
  let s1 := step sample_URL_href s0 (Settle 0 (ok_response [])) in
  inflight s0 = [mkPending "home" "https://example.org/pages/home.html"]
  /\ activeId (app (world s0)) = None
  /\ inflight s1 = []
  /\ app (world s1) = mkAppState sample_navData (Some "home") "<p>home</p>" "home.html"
  /\ document (world s1)
     = mkDocument (Some [mkNavElement "home" "?id=home" "Home" true true])
                  (Some (Some (mkIframe "content-frame" "<p>home</p>")))
  /\ search (location (world s1)) = [("id", "home")]
  /\ requests (world s1)
     = [NAV_DATA_URL; "https://example.org/pages/home.html"].
Proof. vm_compute. repeat split. Qed.

(** Two selections in flight settle in the opposite order: the one that
    settles last is the active one. *)
Example late_response_wins :
  let two := [("a", mkNavItem "A" "a.html"); ("b", mkNavItem "B" "b.html")] in
  let s0 := start sample_URL_href sample_document (sample_location [])
                  failed_request (ok_response two) in
  let s1 := run sample_URL_href s0
                [Click "b"; Settle 1 (ok_response []); Settle 0 failed_request] in
  map pending_id (inflight s0) = ["a"]
  /\ activeId (app (world s1)) = Some "a"
  /\ currentHtml (app (world s1)) = EmptyString
  /\ map entry_id (history (world s1)) = ["b"; "a"].
Proof. vm_compute. repeat split. Qed.

(** ** Keys and properties *)

Lemma own_property_In (k : string) (o : NavData) (v : NavItem) :
  own_property k o = Some v -> In k (Object_keys o).
Proof.
  induction o as [|[k' v'] o IH]; simpl; [discriminate|].
  destruct (String.eqb_spec k' k) as [->|_]; auto.
Qed.

Lemma In_own_property (k : string) (o : NavData) :
  In k (Object_keys o) -> exists v, own_property k o = Some v.
Proof.
  induction o as [|[k' v'] o IH]; simpl; [tauto|].
  intros [->|H].
  - rewrite String.eqb_refl. eauto.
  - destruct (String.eqb k' k); eauto.
Qed.

Lemma not_In_own_property (k : string) (o : NavData) :
  ~ In k (Object_keys o) -> own_property k o = None.
Proof.
  intros H. destruct (own_property k o) eqn:E; [|reflexivity].
  exfalso. eauto using own_property_In.
Qed.

Lemma property_own (k : string) (o : NavData) (v : NavItem) :
  own_property k o = Some v -> property o k = Own v.
Proof. unfold property. intros ->. reflexivity. Qed.

Lemma property_Own_inv (k : string) (o : NavData) (v : NavItem) :
  property o k = Own v -> own_property k o = Some v.
Proof.
  unfold property. destruct (own_property k o).
  - now intros [= ->].
  - destruct (includes k Object_prototype); discriminate.
Qed.

(** ** URLSearchParams: a value that was set is the value read *)

Lemma searchParams_get_set (name value : string) (q : Query) :
  searchParams_get name (searchParams_set name value q) = Some value.
Proof.
  induction q as [|[n v] q IH]; simpl.
  - now rewrite String.eqb_refl.
  - destruct (String.eqb n name) eqn:E; simpl; now rewrite E.
Qed.

(** ** Highlighting *)

Lemma mark_active (id : string) (el : NavElement) :
  active (mark id el) = String.eqb (data_id el) id
  /\ aria_current (mark id el) = String.eqb (data_id el) id
  /\ data_id (mark id el) = data_id el.
Proof. unfold mark. destruct (String.eqb (data_id el) id); auto. Qed.

(** ** The two halves of loadContentById *)

Section WithPlatform.

Variable URL_href : string -> Location -> option string.

(** The first half leaves [state] alone, and suspends only on an own key. *)
Lemma begin_app (id : string) (w : World) :
  app (Js.exec (loadContentById_begin URL_href id) w) = app w.
Proof.
  unfold loadContentById_begin, getMainContent, resolveUri, console_error. js.
  destruct (property (navData (app w)) id) as [|item|name]; simpl; auto.
  - destruct (main_content (document w)) as [[f|]|]; simpl; auto;
      destruct (startsWith "http://" (uri item) || startsWith "https://" (uri item));
      simpl; try reflexivity;
      destruct (URL_href (uri item) (location w)); reflexivity.
  - destruct (main_content (document w)) as [[f|]|]; reflexivity.
Qed.

Lemma begin_pending (id : string) (w : World) (p : Pending) :
  Js.result (loadContentById_begin URL_href id) w = Fulfilled (Some p) ->
  pending_id p = id /\ In id (Object_keys (navData (app w))).
Proof.
  unfold loadContentById_begin, getMainContent, resolveUri, console_error. js.
  destruct (property (navData (app w)) id) as [|item|name] eqn:E; simpl.
  - discriminate.
  - apply property_Own_inv in E.
    destruct (main_content (document w)) as [[f|]|]; simpl;
      try discriminate;
      destruct (startsWith "http://" (uri item) || startsWith "https://" (uri item));
      simpl; try destruct (URL_href (uri item) (location w)); simpl;
      try discriminate;
      intros H; inversion H; subst; simpl; eauto using own_property_In.
  - destruct (main_content (document w)) as [[f|]|]; simpl; discriminate.
Qed.

(** What [resolveUri] does, in one equation. *)
Lemma resolveUri_resolved (uri : string) (w : World) :
  resolveUri URL_href (Some uri) w
  = (match resolved URL_href uri (location w) with
     | Some url => Fulfilled url
     | None => Rejected (JsError "Invalid URL")
     end, w).
Proof.
  unfold resolveUri, resolved. js.
  destruct (startsWith "http://" uri || startsWith "https://" uri);
    [reflexivity|].
  destruct (URL_href uri (location w)); reflexivity.
Qed.

(** On an own key whose uri resolves, with [#main-content] there, the first
    half issues the request and suspends. *)
Lemma begin_own (id : string) (w : World) (item : NavItem) (frame : option Iframe)
      (url : string) :
  own_property id (navData (app w)) = Some item ->
  main_content (document w) = Some frame ->
  resolved URL_href (uri item) (location w) = Some url ->
  exists w1,
    loadContentById_begin URL_href id w = (Fulfilled (Some (mkPending id url)), w1)
    /\ app w1 = app w
    /\ nav_container (document w1) = nav_container (document w)
    /\ (exists f, main_content (document w1) = Some (Some f))
    /\ location w1 = location w
    /\ history w1 = history w
    /\ requests w1 = (requests w ++ [url])%list.
Proof.
  intros Hown Hmain Hurl.
  unfold loadContentById_begin, getMainContent.
  unfold Js.bind at 1. unfold Js.get at 1.
  rewrite (property_own _ _ _ Hown). cbn [truthy negb uri_of].
  unfold Js.bind at 1. unfold Js.bind at 1. unfold Js.get at 1.
  rewrite Hmain. unfold Js.ret at 1.
  unfold Js.bind at 1. rewrite resolveUri_resolved, Hurl.
  destruct frame as [f|]; js; eexists;
    (split; [reflexivity|]); simpl; rewrite ?Hmain; eauto 10.
Qed.

(** The second half always runs to its end. *)
Lemma resume_result (p : Pending) (o : Settled Response) (w : World) :
  Js.result (loadContentById_resume p o) w = Fulfilled tt.
Proof.
  unfold loadContentById_resume. js.
  destruct o as [r|e]; simpl; [|reflexivity].
  destruct (ok r); simpl; [|reflexivity].
  destruct (text r); reflexivity.
Qed.

Lemma resume_app (p : Pending) (o : Settled Response) (w : World) :
  navData (app (Js.exec (loadContentById_resume p o) w)) = navData (app w)
  /\ activeId (app (Js.exec (loadContentById_resume p o) w)) = Some (pending_id p).
Proof.
  unfold loadContentById_resume. js.
  destruct o as [r|e]; simpl; [|auto].
  destruct (ok r); simpl; [|auto].
  destruct (text r); simpl; auto.
Qed.

Lemma resume_world (p : Pending) (o : Settled Response) (w : World) :
  let w' := Js.exec (loadContentById_resume p o) w in
  nav_container (document w') = option_map (map (mark (pending_id p))) (nav_container (document w))
  /\ location w' = mkLocation (hostname (location w)) (rest_of_href (location w))
                     (searchParams_set "id" (pending_id p) (search (location w)))
  /\ history w' = (history w ++ [mkHistoryEntry (pending_id p) (location w')])%list
  /\ requests w' = requests w.
Proof.
  unfold loadContentById_resume. js.
  destruct o as [r|e]; simpl.
  - destruct (ok r); simpl.
    + destruct (text r); simpl;
        destruct (main_content (document w)) as [[f|]|]; simpl; auto.
    + destruct (main_content (document w)) as [[f|]|]; simpl; auto.
  - destruct (main_content (document w)) as [[f|]|]; simpl; auto.
Qed.

(** When the request fails, the [catch] block runs. *)
Lemma resume_failure (p : Pending) (o : Settled Response) (w : World) (f : Iframe) :
  page_fetch_fails o = true ->
  main_content (document w) = Some (Some f) ->
  let w' := Js.exec (loadContentById_resume p o) w in
  currentHtml (app w') = EmptyString
  /\ currentTitle (app w') = EmptyString
  /\ main_content (document w')
     = Some (Some (mkIframe (className f) (error_page (page_failure o))))
  /\ console w'
     = (console w ++ [mkLogEntry ERROR "加载内容失败:" (Some (page_failure o))])%list.
Proof.
  intros Hfail Hmain. unfold loadContentById_resume. js.
  destruct o as [r|e]; simpl in *.
  - destruct (ok r); simpl in *.
    + destruct (text r); simpl in *; [discriminate|].
      rewrite Hmain. simpl. auto.
    + rewrite Hmain. simpl. auto.
  - rewrite Hmain. simpl. auto.
Qed.

Lemma error_page_contains (e : JsThrown) :
  contains error_indicator (error_page e).
Proof.
  unfold contains, error_page.
  exists ("<body style=" ++ dquote
            ++ "font-family: sans-serif; padding: 2rem; color: #666;" ++ dquote
            ++ ">" ++ newline ++ "      <p>").
  exists (message_or_unknown e ++ "</p>" ++ newline ++ "    </body>").
  reflexivity.
Qed.

(** ** Calls that nobody awaits *)

Lemma call_async_app (m : M (option Pending)) :
  (forall w, app (Js.exec m w) = app w) ->
  forall w, app (Js.exec (call_async m) w) = app w.
Proof.
  intros H w. specialize (H w). unfold call_async. js.
  destruct (m w) as [[r|e] w']; simpl in *; assumption.
Qed.

Lemma call_async_result (m : M (option Pending)) (w : World) (p : Pending) :
  Js.result (call_async m) w = Fulfilled (Some p) ->
  Js.result m w = Fulfilled (Some p).
Proof.
  unfold call_async. js.
  destruct (m w) as [[r|e] w']; simpl; [auto|discriminate].
Qed.

(** ** Handlers keep [state] until a request settles *)

Lemma handleNavClick_app (id : string) (w : World) :
  app (Js.exec (handleNavClick URL_href id) w) = app w.
Proof.
  pose proof (call_async_app _ (begin_app id) w) as H.
  unfold handleNavClick. js.
  destruct (activeId (app w)) as [a|]; [|exact H].
  destruct (String.eqb id a); [reflexivity|exact H].
Qed.

Lemma handleNavClick_pending (id : string) (w : World) (p : Pending) :
  Js.result (handleNavClick URL_href id) w = Fulfilled (Some p) ->
  In (pending_id p) (Object_keys (navData (app w))).
Proof.
  pose proof (call_async_result (loadContentById_begin URL_href id) w p) as H.
  unfold handleNavClick. js.
  assert (K : fst (call_async (loadContentById_begin URL_href id) w)
              = Fulfilled (Some p) ->
              In (pending_id p) (Object_keys (navData (app w)))).
  { intros E. apply H in E. apply begin_pending in E as [-> E]. exact E. }
  destruct (activeId (app w)) as [a|]; [|exact K].
  destruct (String.eqb id a); [discriminate|exact K].
Qed.

Lemma onPopstate_app (st : option string) (w : World) :
  app (Js.exec (onPopstate URL_href st) w) = app w.
Proof.
  unfold onPopstate, getIdFromUrl. js.
  destruct (if truthy_string st then st
            else searchParams_get "id" (search (location w))) as [id'|] eqn:E;
    [|reflexivity].
  destruct (_ && _); [|reflexivity].
  apply (call_async_app _ (begin_app id') w).
Qed.

Lemma onPopstate_pending (st : option string) (w : World) (p : Pending) :
  Js.result (onPopstate URL_href st) w = Fulfilled (Some p) ->
  In (pending_id p) (Object_keys (navData (app w))).
Proof.
  unfold onPopstate, getIdFromUrl. js.
  destruct (if truthy_string st then st
            else searchParams_get "id" (search (location w))) as [id'|] eqn:E;
    [|discriminate].
  destruct (_ && _); [|discriminate].
  intros H. apply call_async_result in H.
  apply begin_pending in H as [-> H]. exact H.
Qed.

End WithPlatform.

(** ** The manifest loader *)

Lemma loadNavData_local_falls_through (local : Settled Response) (w : World) :
  manifest_fetch_fails local = true ->
  Js.result (loadNavData_local local) w = Fulfilled None.
Proof.
  unfold loadNavData_local, fetch, console_log, console_warn. js.
  destruct local as [r|e]; simpl; [|reflexivity].
  destruct (ok r); simpl; [|reflexivity].
  destruct (json r); simpl; [discriminate|reflexivity].
Qed.

Lemma loadNavData_local_returns (local : Settled Response) (w : World) :
  exists found, Js.result (loadNavData_local local) w = Fulfilled found.
Proof.
  unfold loadNavData_local, fetch, console_log, console_warn. js.
  destruct local as [r|e]; simpl; [|eauto].
  destruct (ok r); simpl; [|eauto].
  destruct (json r); simpl; eauto.
Qed.

Lemma loadNavData_remote_returns (remote : Settled Response) (w : World) :
  exists data, Js.result (loadNavData_remote remote) w = Fulfilled data.
Proof.
  unfold loadNavData_remote, fetch, console_log, console_error. js.
  destruct remote as [r|e]; simpl; [|eauto].
  destruct (ok r); simpl; [|eauto].
  destruct (json r); simpl; eauto.
Qed.

Lemma loadNavData_remote_failure (remote : Settled Response) (w : World) :
  manifest_fetch_fails remote = true ->
  loadNavData_remote remote w
  = (Fulfilled [],
     push_console (mkLogEntry ERROR "加载导航数据失败:" (Some (manifest_failure remote)))
                  (push_request NAV_DATA_URL w)).
Proof.
  unfold loadNavData_remote, fetch, console_log, console_error. js.
  destruct remote as [r|e]; simpl; [|reflexivity].
  destruct (ok r); simpl; [|reflexivity].
  destruct (json r); simpl; [discriminate|reflexivity].
Qed.

(** The loader writes to the console and to the network only. *)
Lemma loadNavData_frame (local remote : Settled Response) (w : World) :
  let w' := Js.exec (loadNavData local remote) w in
  app w' = app w /\ document w' = document w /\ location w' = location w
  /\ history w' = history w /\ popstate_listener w' = popstate_listener w.
Proof.
  unfold loadNavData. js.
  assert (R : forall w0,
    app w0 = app w /\ document w0 = document w /\ location w0 = location w
    /\ history w0 = history w /\ popstate_listener w0 = popstate_listener w ->
    let w' := snd (loadNavData_remote remote w0) in
    app w' = app w /\ document w' = document w /\ location w' = location w
    /\ history w' = history w /\ popstate_listener w' = popstate_listener w).
  { intros w0 H. unfold loadNavData_remote, fetch, console_log, console_error. js.
    destruct remote as [r|e]; simpl; [|exact H].
    destruct (ok r); simpl; [|exact H].
    destruct (json r); simpl; exact H. }
  unfold loadNavData_local, fetch, console_log, console_warn. js.
  destruct (isDev w); simpl; [|apply R; auto 6].
  destruct local as [r|e]; simpl; [|apply R; auto 6].
  destruct (ok r); simpl; [|apply R; auto 6].
  destruct (json r); simpl; [auto 6|apply R; auto 6].
Qed.

(** ** Sessions *)

Section Sessions.

Variable URL_href : string -> Location -> option string.

(** [init] leaves [activeId] alone, and what it leaves suspended is a call
    for a key of the manifest it has just stored. *)
Lemma init_spec (local remote : Settled Response) (w : World)
      (r : Settled (option Pending)) (w' : World) :
  init URL_href local remote w = (r, w') ->
  activeId (app w') = activeId (app w)
  /\ forall p, r = Fulfilled (Some p) ->
               In (pending_id p) (Object_keys (navData (app w'))).
Proof.
  pose proof (loadNavData_frame local remote w) as F.
  unfold init, Js.exec, Js.try_catch in *.
  unfold Js.bind at 1.
  destruct (loadNavData local remote w) as [[nd|e] w1]; simpl in F;
    destruct F as (Fa & Fd & _); cycle 1.
  { simpl. intros [= <- <-]. simpl. rewrite Fa. split; [reflexivity|discriminate]. }
  unfold renderNav, getNavContainer, getIdFromUrl, console_log, console_error.
  js.
  destruct (nav_container (document w1)) as [els|]; simpl.
  2:{ intros [= <- <-]. simpl. rewrite Fa. split; [reflexivity|discriminate]. }
  destruct nd as [|[first item0] rest]; simpl.
  { intros [= <- <-]. simpl. rewrite Fa. split; [reflexivity|discriminate]. }
  match goal with
  | |- context [call_async ?m ?w2] =>
      pose proof (call_async_app m (begin_app URL_href _) w2) as A;
      pose proof (fun p => call_async_result m w2 p) as B;
      destruct (call_async m w2) as [[q|e] w3] eqn:E;
      unfold Js.exec, Js.result in A, B; rewrite E in A, B
  end; simpl in *.
  - intros [= <- <-]. simpl. rewrite A. simpl. rewrite Fa.
    split; [reflexivity|].
    intros p [= ->]. specialize (B p eq_refl).
    apply begin_pending in B as [Hp B]. rewrite <- Hp in B. exact B.
  - intros [= <- <-]. simpl. rewrite A. simpl. rewrite Fa.
    split; [reflexivity|discriminate].
Qed.

Lemma known_app (w w' : World) (id : string) :
  app w' = app w -> known w id -> known w' id.
Proof. unfold known. now intros ->. Qed.

Lemma session_ok_app (s : Session) (w' : World) :
  app w' = app (world s) -> session_ok s -> session_ok (mkSession w' (inflight s)).
Proof.
  intros E [Ha Hp]. split; simpl.
  - intros a H. rewrite E in H. eauto using known_app.
  - eapply Forall_impl; [|exact Hp]. simpl. eauto using known_app.
Qed.

Lemma dispatch_ok (m : M (option Pending)) (s : Session) :
  (forall w, app (Js.exec m w) = app w) ->
  (forall w p, Js.result m w = Fulfilled (Some p) -> known w (pending_id p)) ->
  session_ok s -> session_ok (dispatch m s).
Proof.
  intros Happ Hres Hs.
  specialize (Happ (world s)). specialize (Hres (world s)).
  unfold dispatch, Js.exec, Js.result in *.
  destruct (m (world s)) as [[[p|]|e] w']; simpl in *;
    pose proof (session_ok_app s w' Happ Hs) as [Ha Hp]; simpl in *;
    try (split; assumption).
  split; simpl; [assumption|].
  apply Forall_app. split; [assumption|].
  constructor; [|constructor].
  eapply known_app; [exact Happ|]. apply Hres. reflexivity.
Qed.

Lemma Forall_remove_nth {A} (P : A -> Prop) (k : nat) (l : list A) :
  Forall P l -> Forall P (remove_nth k l).
Proof.
  intros H. revert k. induction H as [|x l Hx Hl IH]; intros [|k]; simpl;
    auto using Forall.
Qed.

Lemma step_ok (s : Session) (e : Event) :
  session_ok s -> session_ok (step URL_href s e).
Proof.
  intros Hs. destruct e as [id|st loc|k o]; simpl.
  - apply dispatch_ok; auto using handleNavClick_app.
    intros w p. apply handleNavClick_pending.
  - assert (Hs' : session_ok (mkSession (set_location loc (world s)) (inflight s)))
      by (apply session_ok_app; [reflexivity|assumption]).
    destruct (popstate_listener (world s)); [|assumption].
    apply dispatch_ok; auto using onPopstate_app.
    intros w p. apply onPopstate_pending.
  - destruct (nth_error (inflight s) k) as [p|] eqn:E; [|assumption].
    destruct Hs as [Ha Hp].
    destruct (resume_app p o (world s)) as [Hn Hact].
    assert (K : forall id, known (world s) id ->
                known (Js.exec (loadContentById_resume p o) (world s)) id)
      by (unfold known; intros id; now rewrite Hn).
    split; simpl.
    + intros a H. rewrite Hact in H. injection H as <-.
      apply K. apply nth_error_In in E.
      rewrite Forall_forall in Hp. now apply Hp.
    + apply Forall_remove_nth. eapply Forall_impl; [|exact Hp]. simpl. auto.
Qed.

Lemma start_ok (doc : Document) (loc : Location) (local remote : Settled Response) :
  session_ok (start URL_href doc loc local remote).
Proof.
  unfold start, dispatch. simpl.
  destruct (init URL_href local remote (world0 doc loc)) as [r w'] eqn:E.
  apply init_spec in E as [Hact Hp]. simpl in Hact.
  assert (Ha : forall a, activeId (app w') = Some a -> known w' a)
    by (intros a H; rewrite Hact in H; discriminate).
  destruct r as [[p|]|e]; split; simpl; auto.
  constructor; [|constructor]. apply Hp. reflexivity.
Qed.

Lemma run_ok (es : list Event) (s : Session) :
  session_ok s -> session_ok (run URL_href s es).
Proof.
  revert s. induction es as [|e es IH]; intros s Hs; simpl; [assumption|].
  apply IH. now apply step_ok.
Qed.

(** ** The claims about the controller *)

(** C1. After [init] on a freshly loaded page and any sequence of clicks,
    history traversals and settling requests, [state.activeId] is [null] or
    a key of [state.navData]; and [loadContentById] called with an id that
    is not a key of [state.navData] leaves [state.activeId] as it was,
    whatever the world it runs in. *)
Theorem activeId_null_or_key
    (doc : Document) (loc : Location) (local remote : Settled Response)
    (es : list Event) :
  let s := run URL_href (start URL_href doc loc local remote) es in
  (activeId (app (world s)) = None
   \/ exists a, activeId (app (world s)) = Some a
                /\ In a (Object_keys (navData (app (world s)))))
  /\ (forall (w : World) (id : string) (o : Settled Response),
        ~ In id (Object_keys (navData (app w))) ->
        activeId (app (Js.exec (loadContentById URL_href id o) w))
        = activeId (app w)).
Proof.
  split.
  - destruct (run_ok es _ (start_ok doc loc local remote)) as [Ha _].
    destruct (activeId (app (world _))) as [a|]; [right|left; reflexivity].
    exists a. split; [reflexivity|]. now apply Ha.
  - intros w id o Hid.
    pose proof (begin_app URL_href id w) as Happ.
    pose proof (begin_pending URL_href id w) as Hp.
    unfold loadContentById, Js.exec, Js.result, Js.bind in *.
    destruct (loadContentById_begin URL_href id w) as [[[p|]|e] w1];
      simpl in *; try (now rewrite Happ).
    destruct (Hp p eq_refl) as [_ H]. contradiction.
Qed.

(** C2. For a key of [navData], when the page request is made (so
    [#main-content] is in the document and the uri of the entry resolves,
    to [url]) and fails (it rejects, its status is not OK, or its body
    cannot be read), [loadContentById] leaves [currentHtml] and
    [currentTitle] empty and the frame's [srcdoc] is the inline error
    message, which contains the error indicator. *)
Theorem failed_fetch_clears_cache_and_shows_error
    (w : World) (id : string) (item : NavItem) (frame : option Iframe)
    (url : string) (o : Settled Response) :
  own_property id (navData (app w)) = Some item ->
  main_content (document w) = Some frame ->
  resolved URL_href (uri item) (location w) = Some url ->
  page_fetch_fails o = true ->
  let w' := Js.exec (loadContentById URL_href id o) w in
  currentHtml (app w') = EmptyString
  /\ currentTitle (app w') = EmptyString
  /\ exists f, main_content (document w') = Some (Some f)
               /\ srcdoc f = error_page (page_failure o)
               /\ contains error_indicator (srcdoc f).
Proof.
  intros Hown Hmain Hurl Hfail.
  destruct (begin_own URL_href id w item frame url Hown Hmain Hurl)
    as (w1 & E & _ & _ & [f Hf] & _).
  unfold loadContentById, Js.exec, Js.bind. rewrite E.
  destruct (resume_failure (mkPending id url) o w1 f Hfail Hf) as (H1 & H2 & H3 & _).
  unfold Js.exec in *. repeat split; try assumption.
  eexists. split; [exact H3|]. simpl. split; [reflexivity|].
  apply error_page_contains.
Qed.

(** C3. [handleNavClick] called with the active key returns at once: the
    world it leaves is the world it found (no request, no history entry, the
    same [state]) and no call is left suspended. *)
Theorem handleNavClick_active_key_is_noop (w : World) (id : string) :
  activeId (app w) = Some id ->
  handleNavClick URL_href id w = (Fulfilled None, w)
  /\ requests (Js.exec (handleNavClick URL_href id) w) = requests w
  /\ history (Js.exec (handleNavClick URL_href id) w) = history w
  /\ app (Js.exec (handleNavClick URL_href id) w) = app w.
Proof.
  intros H.
  assert (E : handleNavClick URL_href id w = (Fulfilled None, w)).
  { unfold handleNavClick. js. rewrite H, String.eqb_refl. reflexivity. }
  unfold Js.exec. rewrite E. auto.
Qed.

(** C4, as the code has it. For a key of [navData] whose uri resolves (to
    [url]), with [#main-content] in the document, [loadContentById] requests
    [url] and runs to its end whatever the outcome of that request, and
    then: [activeId] is the key; a [.nav-item] element is marked active
    (class and [aria-current]) exactly when its [data-id] is the key; and
    one history entry was pushed, carrying the key as state and the new
    location, whose [id] parameter is the key. *)
Theorem loadContentById_selects
    (w : World) (id : string) (item : NavItem) (frame : option Iframe)
    (url : string) (o : Settled Response) :
  own_property id (navData (app w)) = Some item ->
  main_content (document w) = Some frame ->
  resolved URL_href (uri item) (location w) = Some url ->
  let w' := Js.exec (loadContentById URL_href id o) w in
  Js.result (loadContentById URL_href id o) w = Fulfilled tt
  /\ requests w' = (requests w ++ [url])%list
  /\ activeId (app w') = Some id
  /\ nav_items (document w') = map (mark id) (nav_items (document w))
  /\ (forall el, In el (nav_items (document w')) ->
        active el = String.eqb (data_id el) id
        /\ aria_current el = String.eqb (data_id el) id)
  /\ history w' = (history w ++ [mkHistoryEntry id (location w')])%list
  /\ searchParams_get "id" (search (location w')) = Some id.
Proof.
  intros Hown Hmain Hurl.
  destruct (begin_own URL_href id w item frame url Hown Hmain Hurl)
    as (w1 & E & _ & Hnav & _ & Hloc & Hhist & Hreq).
  pose proof (resume_result (mkPending id url) o w1) as R.
  destruct (resume_app (mkPending id url) o w1) as [_ Hact].
  destruct (resume_world (mkPending id url) o w1) as (Hn & Hl & Hh & Hr).
  unfold loadContentById, Js.exec, Js.result, Js.bind in *. rewrite E.
  simpl in *.
  assert (Hitems :
    nav_items (document (snd (loadContentById_resume (mkPending id url) o w1)))
    = map (mark id) (nav_items (document w))).
  { unfold nav_items. rewrite Hn, Hnav.
    destruct (nav_container (document w)); reflexivity. }
  repeat split; try assumption.
  - now rewrite Hr.
  - rewrite Hitems in H. apply in_map_iff in H as (el0 & <- & _).
    destruct (mark_active id el0) as (Ha & _ & Hd). now rewrite Ha, Hd.
  - rewrite Hitems in H. apply in_map_iff in H as (el0 & <- & _).
    destruct (mark_active id el0) as (_ & Ha & Hd). now rewrite Ha, Hd.
  - rewrite Hh, Hhist. reflexivity.
  - rewrite Hl. simpl. apply searchParams_get_set.
Qed.

(** With both containers in the document and a manifest that is not empty,
    [init] preselects [initialId], provided that is a key whose uri
    resolves. *)
Lemma start_preselects_initialId
    (doc : Document) (loc : Location) (local remote : Settled Response)
    (first : string) (item0 : NavItem) (rest : NavData)
    (els : list NavElement) (frame : option Iframe) :
  let nd := (first, item0) :: rest in
  let id := initialId nd (searchParams_get "id" (search loc)) first in
  Js.result (loadNavData local remote) (world0 doc loc) = Fulfilled nd ->
  nav_container doc = Some els ->
  main_content doc = Some frame ->
  resolves URL_href nd loc id ->
  preselects (start URL_href doc loc local remote) id.
Proof.
  intros nd id Hload Hnav Hmain (item & url & Hown & Hurl).
  pose proof (loadNavData_frame local remote (world0 doc loc)) as F.
  unfold start, dispatch, init, Js.try_catch.
  unfold Js.bind at 1. simpl world.
  unfold Js.result in Hload. unfold Js.exec in F.
  destruct (loadNavData local remote (world0 doc loc)) as [r w1].
  simpl in Hload, F. subst r. destruct F as (_ & Fd & Fl & _).
  unfold renderNav, getNavContainer, getIdFromUrl, console_log.
  unfold Js.bind, Js.ret, Js.get, Js.modify. simpl.
  rewrite Fd, Hnav. simpl. rewrite Fl.
  match goal with
  | |- context [call_async (loadContentById_begin _ ?i) ?w2] =>
      destruct (begin_own URL_href i w2 item frame url) as (w3 & E & _);
        [exact Hown|simpl; rewrite Fd; exact Hmain
        |simpl; rewrite Fl; exact Hurl|]
  end.
  unfold call_async, Js.try_catch. rewrite E. simpl.
  exists url. reflexivity.
Qed.

(** C6, as the code has it. After [loadContentById] has run for a key of
    [navData] whose uri resolves (with [#main-content] there, whatever the
    page request gave), the [id] parameter of the location is that key.  And
    [init], with both containers in the document and a manifest that is not
    empty, preselects the [id] parameter of the location when it is not the
    empty string and is a key of the manifest whose uri resolves; it
    preselects the first key, when the uri of that one resolves, if the
    parameter is absent or empty, or names nothing that the manifest object
    has or inherits. *)
Theorem url_id_round_trip_and_initial_selection :
  (forall (w : World) (id : string) (item : NavItem) (frame : option Iframe)
          (url : string) (o : Settled Response),
      own_property id (navData (app w)) = Some item ->
      main_content (document w) = Some frame ->
      resolved URL_href (uri item) (location w) = Some url ->
      searchParams_get "id"
        (search (location (Js.exec (loadContentById URL_href id o) w)))
      = Some id)
  /\ (forall (doc : Document) (loc : Location) (local remote : Settled Response)
             (first : string) (item0 : NavItem) (rest : NavData)
             (els : list NavElement) (frame : option Iframe),
        let nd := (first, item0) :: rest in
        let urlId := searchParams_get "id" (search loc) in
        let s := start URL_href doc loc local remote in
        Js.result (loadNavData local remote) (world0 doc loc) = Fulfilled nd ->
        nav_container doc = Some els ->
        main_content doc = Some frame ->
        (forall u, urlId = Some u -> u <> EmptyString ->
                   resolves URL_href nd loc u -> preselects s u)
        /\ (urlId = None \/ urlId = Some EmptyString ->
            resolves URL_href nd loc first -> preselects s first)
        /\ (forall u, urlId = Some u -> ~ In u (Object_keys nd) ->
                      includes u Object_prototype = false ->
                      resolves URL_href nd loc first -> preselects s first)).
Proof.
  split.
  - intros w id item frame url o Hown Hmain Hurl.
    destruct (begin_own URL_href id w item frame url Hown Hmain Hurl)
      as (w1 & E & _).
    destruct (resume_world (mkPending id url) o w1) as (_ & Hl & _).
    unfold loadContentById, Js.exec, Js.bind in *. rewrite E.
    rewrite Hl. simpl. apply searchParams_get_set.
  - intros doc loc local remote first item0 rest els frame nd urlId s
           Hload Hnav Hmain.
    pose proof (start_preselects_initialId doc loc local remote first item0
                  rest els frame Hload Hnav Hmain) as P.
    fold nd urlId s in P.
    repeat split.
    + intros u Hu Hne Hres.
      assert (E : initialId nd urlId first = u).
      { rewrite Hu. unfold initialId. simpl.
        apply String.eqb_neq in Hne. rewrite Hne. simpl.
        destruct Hres as (v & _ & Hv & _).
        now rewrite (property_own _ _ _ Hv). }
      rewrite E in P. auto.
    + intros [Hu|Hu] Hres;
        (assert (E : initialId nd urlId first = first)
           by (rewrite Hu; reflexivity));
        rewrite E in P; auto.
    + intros u Hu Hnot Hproto Hres.
      assert (E : initialId nd urlId first = first).
      { rewrite Hu. unfold initialId, property.
        rewrite (not_In_own_property _ _ Hnot), Hproto. simpl.
        now rewrite andb_false_r. }
      rewrite E in P. auto.
Qed.

End Sessions.

(** C5. [loadNavData] never throws: whatever the two requests give, it
    returns a mapping.  And when the remote request is made (outside
    development, or after the local attempt failed) and fails (it rejects,
    its status is not OK, or its body is not JSON), the loader returns the
    empty mapping and its last console call is the error log. *)
Theorem loadNavData_never_throws (w : World) (local remote : Settled Response) :
  (exists data, Js.result (loadNavData local remote) w = Fulfilled data)
  /\ (isDev w = false \/ manifest_fetch_fails local = true ->
      manifest_fetch_fails remote = true ->
      Js.result (loadNavData local remote) w = Fulfilled []
      /\ exists before,
           console (Js.exec (loadNavData local remote) w)
           = (before ++ [mkLogEntry ERROR "加载导航数据失败:"
                                   (Some (manifest_failure remote))])%list).
Proof.
  split.
  - unfold loadNavData, Js.result, Js.bind, Js.get.
    destruct (isDev w).
    + destruct (loadNavData_local_returns local w) as [found E].
      unfold Js.result in E.
      destruct (loadNavData_local local w) as [r w1]. simpl in E. subst r.
      destruct found as [data|]; [eexists; reflexivity|].
      apply loadNavData_remote_returns.
    + simpl. apply loadNavData_remote_returns.
  - intros Hreach Hfail.
    unfold loadNavData, Js.exec, Js.result, Js.bind, Js.get.
    destruct (isDev w).
    + destruct Hreach as [Hreach|Hlocal]; [discriminate|].
      pose proof (loadNavData_local_falls_through local w Hlocal) as E.
      unfold Js.result in E.
      destruct (loadNavData_local local w) as [r w1]. simpl in E. subst r.
      rewrite (loadNavData_remote_failure remote w1 Hfail). simpl.
      split; [reflexivity|]. eexists. reflexivity.
    + simpl. rewrite (loadNavData_remote_failure remote w Hfail). simpl.
      split; [reflexivity|]. eexists. reflexivity.
Qed.

(** ** The claims at sample inputs *)

(** C1 at a sample: an id that is no key leaves the active key alone. *)
Lemma activeId_null_or_key_witness :
  ~ In "missing" (Object_keys (navData (app (sample_world (Some "home")))))
  /\ activeId (app (Js.exec (loadContentById sample_URL_href "missing" failed_request)
                            (sample_world (Some "home"))))
     = Some "home".
Proof.
  assert (H : ~ In "missing"
                (Object_keys (navData (app (sample_world (Some "home")))))).
  { simpl. intros [H|[]]. discriminate H. }
  split; [exact H|].
  exact (proj2 (activeId_null_or_key sample_URL_href sample_document
                  (sample_location []) failed_request failed_request [])
               (sample_world (Some "home")) "missing" failed_request H).
Defined.

(** C2 at a sample: the request for the page of "home" rejects. *)
Lemma failed_fetch_clears_cache_and_shows_error_witness :
  own_property "home" (navData (app (sample_world None))) = Some sample_item
  /\ main_content (document (sample_world None)) = Some None
  /\ resolved sample_URL_href (uri sample_item) (location (sample_world None))
     = Some "https://example.org/pages/home.html"
  /\ page_fetch_fails failed_request = true
  /\ let w' := Js.exec (loadContentById sample_URL_href "home" failed_request)
                       (sample_world None) in
     currentHtml (app w') = EmptyString
     /\ currentTitle (app w') = EmptyString
     /\ exists f, main_content (document w') = Some (Some f)
                  /\ srcdoc f = error_page (page_failure failed_request)
                  /\ contains error_indicator (srcdoc f).
Proof.
  do 4 (split; [reflexivity|]).
  exact (failed_fetch_clears_cache_and_shows_error sample_URL_href
           (sample_world None) "home" sample_item None
           "https://example.org/pages/home.html" failed_request
           eq_refl eq_refl eq_refl eq_refl).
Defined.

(** C3 at a sample: "home" is active and is clicked again. *)
Lemma handleNavClick_active_key_is_noop_witness :
  activeId (app (sample_world (Some "home"))) = Some "home"
  /\ handleNavClick sample_URL_href "home" (sample_world (Some "home"))
     = (Fulfilled None, sample_world (Some "home")).
Proof.
  split; [reflexivity|].
  exact (proj1 (handleNavClick_active_key_is_noop sample_URL_href
                  (sample_world (Some "home")) "home" eq_refl)).
Defined.

(** C4 at a sample: "home" is selected and its page is served. *)
Lemma loadContentById_selects_witness :
  own_property "home" (navData (app (sample_world None))) = Some sample_item
  /\ main_content (document (sample_world None)) = Some None
  /\ resolved sample_URL_href (uri sample_item) (location (sample_world None))
     = Some "https://example.org/pages/home.html"
  /\ let w' := Js.exec (loadContentById sample_URL_href "home"
                          (ok_response sample_navData))
                       (sample_world None) in
     activeId (app w') = Some "home"
     /\ searchParams_get "id" (search (location w')) = Some "home".
Proof.
  do 3 (split; [reflexivity|]).
  pose proof (loadContentById_selects sample_URL_href (sample_world None)
                "home" sample_item None "https://example.org/pages/home.html"
                (ok_response sample_navData) eq_refl eq_refl eq_refl) as H.
  split; [exact (proj1 (proj2 (proj2 H)))|].
  exact (proj2 (proj2 (proj2 (proj2 (proj2 (proj2 H)))))).
Defined.

(** Where the selection routine, read to the letter, fails: the only entry
    of the manifest has the uri [//[], which [new URL] does not parse.
    [resolveUri] throws before the request is made: the call rejects and
    the key is not made active. *)
Lemma unparseable_uri_is_not_selected :
  ~ selection_to_the_letter sample_URL_href.
Proof.
  intros H.
  specialize (H (set_app (fun _ => mkAppState unparseable_navData None
                                              EmptyString EmptyString)
                         (sample_world None))
                "home" (mkNavItem "Home" "//[") [] None failed_request
                eq_refl eq_refl eq_refl).
  vm_compute in H. discriminate H.
Qed.

(** The same call in full: it rejects with what [new URL] threw, makes no
    request and changes nothing. *)
Example unparseable_uri_rejects :
  let w := set_app (fun _ => mkAppState unparseable_navData None
                                        EmptyString EmptyString)
                   (sample_world None) in
  loadContentById sample_URL_href "home" failed_request w
  = (Rejected (JsError "Invalid URL"), w).
Proof. reflexivity. Qed.

(** C5 at a sample: in production, the remote request rejects. *)
Lemma loadNavData_never_throws_witness :
  isDev (sample_world None) = false
  /\ manifest_fetch_fails failed_request = true
  /\ Js.result (loadNavData failed_request failed_request) (sample_world None)
     = Fulfilled [].
Proof.
  do 2 (split; [reflexivity|]).
  exact (proj1 (proj2 (loadNavData_never_throws (sample_world None)
                         failed_request failed_request)
                      (or_introl eq_refl) eq_refl)).
Defined.

(** C6 at a sample: the page is loaded with [?id=home]. *)
Lemma url_id_round_trip_and_initial_selection_witness :
  let loc := sample_location [("id", "home")] in
  Js.result (loadNavData failed_request (ok_response sample_navData))
            (world0 sample_document loc)
  = Fulfilled sample_navData
  /\ searchParams_get "id" (search loc) = Some "home"
  /\ "home" <> EmptyString
  /\ resolves sample_URL_href sample_navData loc "home"
  /\ preselects (start sample_URL_href sample_document loc failed_request
                       (ok_response sample_navData))
                "home".
Proof.
  assert (Hne : "home" <> EmptyString) by discriminate.
  assert (Hin : resolves sample_URL_href sample_navData
                         (sample_location [("id", "home")]) "home")
    by (exists sample_item, "https://example.org/pages/home.html";
        split; reflexivity).
  do 2 (split; [reflexivity|]).
  split; [exact Hne|]. split; [exact Hin|].
  exact (proj1 (proj2 (url_id_round_trip_and_initial_selection sample_URL_href)
                  sample_document (sample_location [("id", "home")])
                  failed_request (ok_response sample_navData)
                  "home" sample_item [] [] None eq_refl eq_refl eq_refl)
               "home" eq_refl Hne Hin).
Defined.

(** ** Where the URL contract, read to the letter, fails *)

(** The page is loaded with [?id=] and the manifest has an entry under the
    empty key: the parameter is present and is a key, and [init] selects
    the first key, "home", all the same. *)
Lemma empty_id_is_not_preselected :
  ~ init_contract_to_the_letter sample_URL_href.
Proof.
  intros H.
  destruct (H sample_document (sample_location [("id", EmptyString)])
              failed_request (ok_response navData_with_empty_key)
              "home" sample_item
              [(EmptyString, mkNavItem "Untitled" "pages/untitled.html")]
              [] None eq_refl eq_refl eq_refl) as [Hkey _].
  destruct (Hkey EmptyString eq_refl) as [url E].
  - right. left. reflexivity.
  - vm_compute in E. discriminate E.
Qed.

(** The page is loaded with [?id=constructor]: the lookup finds what the
    manifest object inherits, [init] calls [loadContentById] on it, and that
    call throws on [uri.startsWith]: nothing is selected, the first key is
    not fallen back to. *)
Lemma inherited_name_selects_nothing :
  let s := start sample_URL_href sample_document
                 (sample_location [("id", "constructor")])
                 failed_request (ok_response sample_navData) in
  initialId sample_navData (Some "constructor") "home" = "constructor"
  /\ inflight s = []
  /\ activeId (app (world s)) = None
  /\ unhandled (world s)
     = [JsError "Cannot read properties of undefined (reading 'startsWith')"].
Proof. vm_compute. auto. Qed.

End ControllerFacts.

(* ================================================================== *)
(** * Properties of the sync script                                    *)
(* ================================================================== *)

Module DevScriptFacts.

Import DevScript.

Ltac js :=
  unfold Js.exec, Js.result, Js.bind, Js.ret, Js.throw, Js.try_catch,
    Js.await, Js.get, Js.modify in *;
  simpl in *.

Lemma fetchText_failure (url : string) (o : Settled Response) (w : Process) :
  text_fetch_fails o = true ->
  fetchText url o w = (Rejected (text_failure o), push_fetched url w).
Proof.
  unfold fetchText. js. intros H.
  destruct o as [r|e]; simpl in *; [|reflexivity].
  destruct (ok r); simpl in *; [|reflexivity].
  destruct (text r); [discriminate|reflexivity].
Qed.

Lemma fetchText_success (url : string) (r : Response) (t : string) (w : Process) :
  ok r = true -> text r = Fulfilled t ->
  fetchText url (Fulfilled r) w = (Fulfilled t, push_fetched url w).
Proof.
  unfold fetchText. js. intros -> ->. reflexivity.
Qed.

(** ** Computations that start no child process *)

Lemma keeps_ret {A} (a : A) : keeps_spawned (Js.ret a).
Proof. intros w. reflexivity. Qed.

Lemma keeps_throw {A} (e : JsThrown) : keeps_spawned (@Js.throw Process A e).
Proof. intros w. reflexivity. Qed.

Lemma keeps_await {A} (p : Settled A) : keeps_spawned (Js.await p).
Proof. destruct p; intros w; reflexivity. Qed.

Lemma keeps_get : keeps_spawned Js.get.
Proof. intros w. reflexivity. Qed.

Lemma keeps_modify (f : Process -> Process) :
  (forall w, spawned (f w) = spawned w) -> keeps_spawned (Js.modify f).
Proof. intros H w. apply H. Qed.

Lemma keeps_bind {A B} (m : M A) (k : A -> M B) :
  keeps_spawned m -> (forall a, keeps_spawned (k a)) ->
  keeps_spawned (Js.bind m k).
Proof.
  intros Hm Hk w. specialize (Hm w). unfold Js.exec, Js.bind in *.
  destruct (m w) as [[a|e] w1]; simpl in *; [|assumption].
  rewrite <- Hm. apply Hk.
Qed.

Lemma keeps_try_catch {A} (m : M A) (h : JsThrown -> M A) :
  keeps_spawned m -> (forall e, keeps_spawned (h e)) ->
  keeps_spawned (Js.try_catch m h).
Proof.
  intros Hm Hh w. specialize (Hm w). unfold Js.exec, Js.try_catch in *.
  destruct (m w) as [[a|e] w1]; simpl in *; [assumption|].
  rewrite <- Hm. apply Hh.
Qed.

Lemma keeps_for_of {A} (xs : list A) (body : A -> M unit) :
  (forall x, keeps_spawned (body x)) -> keeps_spawned (Js.for_of xs body).
Proof.
  intros H. induction xs as [|x xs IH]; simpl.
  - apply keeps_ret.
  - apply keeps_bind; auto.
Qed.

Lemma keeps_if {A} (b : bool) (m1 m2 : M A) :
  keeps_spawned m1 -> keeps_spawned m2 -> keeps_spawned (if b then m1 else m2).
Proof. destruct b; auto. Qed.

Lemma keeps_log (message : string) (t : LogType) : keeps_spawned (log message t).
Proof. intros w. reflexivity. Qed.

Lemma keeps_fetchText (url : string) (o : Settled Response) :
  keeps_spawned (fetchText url o).
Proof.
  unfold fetchText.
  repeat (apply keeps_bind; intros); auto using keeps_await, keeps_if,
    keeps_throw, keeps_ret.
  apply keeps_modify. reflexivity.
Qed.

Lemma keeps_writeFileSync_page (locate : string -> Place)
      (filename content : string) :
  keeps_spawned (writeFileSync_page locate filename content).
Proof.
  unfold writeFileSync_page.
  destruct (locate filename) as [name|path|message].
  - apply keeps_bind; [apply keeps_get|].
    intros w. destruct (pages (fs w)); [|apply keeps_throw].
    apply keeps_modify. reflexivity.
  - apply keeps_modify. reflexivity.
  - apply keeps_throw.
Qed.

(** ** Computations that only add to the standard output *)








(** Decompose a computation along its combinators. *)
Ltac keeps :=
  repeat first
    [ apply keeps_log | apply keeps_fetchText | apply keeps_writeFileSync_page
    | apply keeps_ret | apply keeps_throw | apply keeps_await | apply keeps_get
    | apply keeps_if | (apply keeps_modify; reflexivity)
    | apply keeps_try_catch; intros | apply keeps_bind; intros ].

Section WithPlatform.

Variable net : string -> Settled Response.
Variable JSON_parse : string -> Settled NavData.
Variable locate : string -> Place.

(** ** The page loop *)

(** One page: nothing thrown in it leaves the loop body. *)
Lemma syncPage_returns (entry : string * NavItem) (w : Process) :
  Js.result (syncPage net locate entry) w = Fulfilled tt.
Proof.
  unfold syncPage, fetchText, writeFileSync_page, log, console_log. js.
  destruct (net (uri (snd entry))) as [r|e]; simpl; [|reflexivity].
  destruct (ok r); simpl; [|reflexivity].
  destruct (text r); simpl; [|reflexivity].
  destruct (locate (fst entry ++ ".html")); simpl; try reflexivity.
  destruct (pages (fs w)); reflexivity.
Qed.

Lemma syncPage_spawned (entry : string * NavItem) (w : Process) :
  spawned (Js.exec (syncPage net locate entry) w) = spawned w.
Proof.
  revert w. fold (keeps_spawned (syncPage net locate entry)).
  unfold syncPage. keeps.
Qed.


Lemma syncPages_cons (entry : string * NavItem) (rest : NavData) (w : Process) :
  syncPages net locate (entry :: rest) w
  = syncPages net locate rest (Js.exec (syncPage net locate entry) w).
Proof.
  pose proof (syncPage_returns entry w) as H.
  unfold syncPages, Object_entries, Js.exec, Js.result in *. simpl.
  unfold Js.bind at 1.
  destruct (syncPage net locate entry w) as [r w']. simpl in *. now subst r.
Qed.


Lemma syncPages_returns (navData : NavData) (w : Process) :
  Js.result (syncPages net locate navData) w = Fulfilled tt.
Proof.
  revert w. induction navData as [|entry rest IH]; intros w.
  - reflexivity.
  - unfold Js.result. rewrite syncPages_cons. apply IH.
Qed.

Lemma syncPages_spawned (navData : NavData) (w : Process) :
  spawned (Js.exec (syncPages net locate navData) w) = spawned w.
Proof.
  revert w. fold (keeps_spawned (syncPages net locate navData)).
  unfold syncPages. apply keeps_for_of. intros entry w. apply syncPage_spawned.
Qed.


(** ** syncResources *)

Lemma syncResources_spawned (w : Process) :
  spawned (Js.exec (syncResources net JSON_parse locate) w) = spawned w.
Proof.
  revert w. fold (keeps_spawned (syncResources net JSON_parse locate)).
  unfold syncResources, existsSync_pages, rmSync_pages, mkdirSync_pages,
    writeFileSync_navData.
  keeps. intros w. apply syncPages_spawned.
Qed.

(** When the manifest request fails, [syncResources] throws before it
    touches the file system. *)
Lemma syncResources_manifest_failure (w : Process) :
  text_fetch_fails (net NAV_DATA_URL) = true ->
  syncResources net JSON_parse locate w
  = (Rejected (text_failure (net NAV_DATA_URL)),
     push_fetched NAV_DATA_URL
       (push_stdout (colors info ++ prefix info ++ " " ++ "同步 nav_data.json..." ++ reset)
          (push_stdout (colors info ++ prefix info ++ " " ++ "开始同步远程资源..." ++ reset)
             w))).
Proof.
  intros H. unfold syncResources, log, console_log.
  unfold Js.bind, Js.modify. simpl.
  rewrite (fetchText_failure _ _ _ H). reflexivity.
Qed.


(** ** The claims about the script *)

(** C7. When [main] runs the sync (no [--serve] among the arguments) and
    the manifest request fails (it rejects, its status is not OK, or its
    body cannot be read), the run fails: the exit code is 1, the file system
    is as it was (no manifest file written, no pages directory removed or
    made, no page file written), no server is spawned, and the manifest
    request is the only request made. *)
Theorem manifest_fetch_failure_is_fatal
    (argv : list string) (server : ServerEvent) (w : Process) :
  includes "--serve" (skipn 2 argv) = false ->
  text_fetch_fails (net NAV_DATA_URL) = true ->
  let w' := Js.exec (main net JSON_parse locate argv server) w in
  Js.result (main net JSON_parse locate argv server) w = Fulfilled 1
  /\ fs w' = fs w
  /\ spawned w' = spawned w
  /\ fetched w' = (fetched w ++ [NAV_DATA_URL])%list.
Proof.
  intros Hserve Hfail.
  unfold main, Js.exec, Js.result. rewrite Hserve.
  unfold Js.try_catch, Js.bind, console_log, Js.modify. cbn [negb].
  rewrite (syncResources_manifest_failure _ Hfail).
  unfold log, console_log, Js.modify, Js.ret. cbn. auto.
Qed.


(** C9. With [--sync] among the arguments, [main] spawns no process. *)
Theorem sync_flag_never_spawns_server
    (argv : list string) (server : ServerEvent) (w : Process) :
  includes "--sync" (skipn 2 argv) = true ->
  spawned (Js.exec (main net JSON_parse locate argv server) w) = spawned w.
Proof.
  intros Hsync. revert w.
  fold (keeps_spawned (main net JSON_parse locate argv server)).
  unfold main. rewrite Hsync. cbn [negb].
  apply keeps_bind; [apply keeps_modify; reflexivity|intros _].
  apply keeps_try_catch; [|intros; keeps].
  apply keeps_bind; [|intros; keeps].
  apply keeps_if; [|apply keeps_ret].
  apply keeps_bind; [|intros; apply keeps_modify; reflexivity].
  intros w. apply syncResources_spawned.
Qed.

(** C10. With both [--sync] and [--serve] among the arguments, [main]
    prints its banner and ends with exit code 0: no sync (no request, the
    file system untouched) and no server. *)
Theorem sync_and_serve_flags_do_nothing
    (argv : list string) (server : ServerEvent) (w : Process) :
  includes "--sync" (skipn 2 argv) = true ->
  includes "--serve" (skipn 2 argv) = true ->
  let w' := Js.exec (main net JSON_parse locate argv server) w in
  main net JSON_parse locate argv server w = (Fulfilled 0, push_stdout banner w)
  /\ fetched w' = fetched w
  /\ fs w' = fs w
  /\ spawned w' = spawned w.
Proof.
  intros Hsync Hserve.
  assert (E : main net JSON_parse locate argv server w = (Fulfilled 0, push_stdout banner w)).
  { unfold main. rewrite Hsync, Hserve. reflexivity. }
  unfold Js.exec. rewrite E. auto.
Qed.

End WithPlatform.

(** ** The claims at sample inputs *)

(** C7 at a sample: [node dev.mjs] with the network down. *)
Lemma manifest_fetch_failure_is_fatal_witness :
  includes "--serve" (skipn 2 ["node"; "dev.mjs"]) = false
  /\ text_fetch_fails (net_down NAV_DATA_URL) = true
  /\ Js.result (main net_down sample_JSON_parse sample_locate ["node"; "dev.mjs"] (Close (Some 0)))
               fresh_process
     = Fulfilled 1
  /\ fs (Js.exec (main net_down sample_JSON_parse sample_locate ["node"; "dev.mjs"] (Close (Some 0)))
                 fresh_process)
     = fs fresh_process.
Proof.
  do 2 (split; [reflexivity|]).
  pose proof (manifest_fetch_failure_is_fatal net_down sample_JSON_parse sample_locate
                ["node"; "dev.mjs"] (Close (Some 0)) fresh_process
                eq_refl eq_refl) as H.
  split; [exact (proj1 H)|exact (proj1 (proj2 H))].
Defined.



(** The same run to the end: the failure is logged, the directory is left
    empty, and the exit code is 1. *)
Example failed_page_with_failed_server :
  let run := main net_manifest_only sample_JSON_parse sample_locate
                  ["node"; "dev.mjs"] (SpawnError "spawn file_server ENOENT" 2) in
  Js.result run fresh_process = Fulfilled 1
  /\ pages (fs (Js.exec run fresh_process)) = Some []
  /\ In (failure_line "p1" (text_failure (net_manifest_only "https://x/p1.html")))
        (stdout (Js.exec run fresh_process)).
Proof.
  split; [reflexivity|]. split; [reflexivity|].
  vm_compute. tauto.
Qed.

(** C9 at a sample: [node dev.mjs --sync]. *)
Lemma sync_flag_never_spawns_server_witness :
  includes "--sync" (skipn 2 ["node"; "dev.mjs"; "--sync"]) = true
  /\ spawned (Js.exec (main net_manifest_only sample_JSON_parse sample_locate
                            ["node"; "dev.mjs"; "--sync"] (Close None))
                      fresh_process)
     = [].
Proof.
  split; [reflexivity|].
  exact (sync_flag_never_spawns_server net_manifest_only sample_JSON_parse sample_locate
           ["node"; "dev.mjs"; "--sync"] (Close None) fresh_process eq_refl).
Defined.

(** C10 at a sample: [node dev.mjs --sync --serve]. *)
Lemma sync_and_serve_flags_do_nothing_witness :
  includes "--sync" (skipn 2 ["node"; "dev.mjs"; "--sync"; "--serve"]) = true
  /\ includes "--serve" (skipn 2 ["node"; "dev.mjs"; "--sync"; "--serve"]) = true
  /\ main net_manifest_only sample_JSON_parse sample_locate
          ["node"; "dev.mjs"; "--sync"; "--serve"] (Close None) fresh_process
     = (Fulfilled 0, push_stdout banner fresh_process).
Proof.
  do 2 (split; [reflexivity|]).
  exact (proj1 (sync_and_serve_flags_do_nothing net_manifest_only
                  sample_JSON_parse sample_locate ["node"; "dev.mjs"; "--sync"; "--serve"]
                  (Close None) fresh_process eq_refl eq_refl)).
Defined.

(** Without flags, the same network and a server that closes: the sync
    runs, the page is skipped, the server is started. *)
Example default_run_syncs_then_serves :
  let w' := Js.exec (main net_manifest_only sample_JSON_parse sample_locate
                          ["node"; "dev.mjs"] (Close (Some 0)))
                    fresh_process in
  fs w' = mkFileSystem (Some sample_manifest_text) (Some []) []
  /\ fetched w' = [NAV_DATA_URL; "https://x/p1.html"]
  /\ spawned w' = [mkSpawn "file_server" ["."]].
Proof. vm_compute. auto. Qed.

End DevScriptFacts.

(* ================================================================== *)
(** * Further properties of the controller                             *)
(* ================================================================== *)

Module ControllerExtras.

Import Controller.
Import ControllerFacts.

(** ** Rendering and highlighting *)

Lemma nav_items_marked (id : string) (w : World) :
  nav_items (document (Js.exec (updateNavActiveState id) w))
  = map (mark id) (nav_items (document w)).
Proof.
  unfold updateNavActiveState, nav_items. js.
  destruct (nav_container (document w)); reflexivity.
Qed.

Lemma mark_mark (a b : string) (el : NavElement) :
  mark a (mark b el) = mark a el.
Proof.
  unfold mark. destruct (String.eqb (data_id el) b); simpl;
    destruct (String.eqb (data_id el) a); reflexivity.
Qed.

Lemma filter_active_absent (id : string) (l : list NavElement) :
  ~ In id (map data_id l) -> filter active (map (mark id) l) = [].
Proof.
  induction l as [|el l IH]; simpl; [reflexivity|].
  intros H. destruct (mark_active id el) as (Ha & _).
  rewrite Ha. destruct (String.eqb_spec (data_id el) id) as [E|_].
  - exfalso. apply H. now left.
  - apply IH. intros K. apply H. now right.
Qed.

Lemma filter_active_present (id : string) (l : list NavElement) :
  NoDup (map data_id l) -> In id (map data_id l) ->
  exists el, filter active (map (mark id) l) = [el]
             /\ data_id el = id /\ aria_current el = true.
Proof.
  induction l as [|el l IH]; simpl; [tauto|].
  intros Hnd Hin. inversion Hnd as [|x xs Hx Hrest]; subst.
  destruct (mark_active id el) as (Ha & Hc & Hd).
  rewrite Ha. destruct (String.eqb_spec (data_id el) id) as [E|N].
  - exists (mark id el). rewrite E in Hx.
    rewrite (filter_active_absent id l Hx).
    rewrite Hc, Hd. auto.
  - destruct Hin as [Hin|Hin]; [contradiction|]. now apply IH.
Qed.

(** X1. With [#nav-container] in the document, [renderNav] replaces its
    children by one element per manifest entry, in manifest order: the
    [data-id]s are the keys, the texts are the titles, every [href] is
    [?id=] followed by the key, and no element is marked active; the rest of
    the document is untouched.  Without the container it throws and changes
    nothing. *)
Theorem renderNav_one_element_per_entry (nd : NavData) (w : World) :
  (forall old, nav_container (document w) = Some old ->
     Js.result (renderNav nd) w = Fulfilled tt
     /\ let d := document (Js.exec (renderNav nd) w) in
        map data_id (nav_items d) = Object_keys nd
        /\ map textContent (nav_items d) = map (fun e => title (snd e)) nd
        /\ Forall (fun el => href el = "?id=" ++ data_id el
                             /\ active el = false /\ aria_current el = false)
                  (nav_items d)
        /\ main_content d = main_content (document w))
  /\ (nav_container (document w) = None ->
      renderNav nd w = (Rejected (JsError "导航容器元素不存在"), w)).
Proof.
  split.
  - intros old H. unfold renderNav, getNavContainer, nav_items. js.
    rewrite H. simpl. split; [reflexivity|].
    unfold Object_entries, Object_keys. rewrite !map_map. simpl.
    repeat split; try reflexivity.
    apply Forall_forall. intros el Hel.
    apply in_map_iff in Hel as (e & <- & _). simpl. auto.
  - intros H. unfold renderNav, getNavContainer. js. rewrite H. reflexivity.
Qed.

(** X2. When the [data-id]s of the [.nav-item] elements are pairwise
    distinct, [updateNavActiveState(id)] leaves exactly one element marked
    active if [id] is among them (that element, with [aria-current]), and
    none otherwise. *)
Theorem updateNavActiveState_marks_exactly_one (id : string) (w : World) :
  NoDup (map data_id (nav_items (document w))) ->
  let after := nav_items (document (Js.exec (updateNavActiveState id) w)) in
  (In id (map data_id (nav_items (document w))) ->
   exists el, filter active after = [el]
              /\ data_id el = id /\ aria_current el = true)
  /\ (~ In id (map data_id (nav_items (document w))) ->
      filter active after = []).
Proof.
  intros Hnd. cbv zeta. rewrite nav_items_marked. split.
  - now apply filter_active_present.
  - apply filter_active_absent.
Qed.

(** X3. Highlighting does not accumulate: after [updateNavActiveState(b)]
    and then [updateNavActiveState(a)] the document is the one that
    [updateNavActiveState(a)] alone gives. *)
Theorem updateNavActiveState_last_call_wins (a b : string) (w : World) :
  Js.exec (updateNavActiveState a) (Js.exec (updateNavActiveState b) w)
  = Js.exec (updateNavActiveState a) w.
Proof.
  unfold updateNavActiveState. js. unfold set_document. simpl.
  destruct (nav_container (document w)) as [els|]; simpl; [|reflexivity].
  rewrite map_map.
  rewrite (map_ext _ _ (mark_mark a b)). reflexivity.
Qed.

(** ** The id parameter *)

Lemma searchParams_get_delete_other (name n : string) (q : Query) :
  n <> name ->
  searchParams_get n (searchParams_delete name q) = searchParams_get n q.
Proof.
  intros Hn. induction q as [|[k v] q IH]; simpl; [reflexivity|].
  destruct (String.eqb_spec k name) as [->|Hk]; simpl.
  - destruct (String.eqb_spec name n) as [E|_]; [congruence|exact IH].
  - destruct (String.eqb k n); [reflexivity|exact IH].
Qed.

Lemma searchParams_get_set_other (name value n : string) (q : Query) :
  n <> name ->
  searchParams_get n (searchParams_set name value q) = searchParams_get n q.
Proof.
  intros Hn. induction q as [|[k v] q IH]; simpl.
  - destruct (String.eqb_spec name n) as [E|_]; [congruence|reflexivity].
  - destruct (String.eqb_spec k name) as [->|Hk]; simpl.
    + destruct (String.eqb_spec name n) as [E|_]; [congruence|].
      now apply searchParams_get_delete_other.
    + destruct (String.eqb k n); [reflexivity|exact IH].
Qed.

Lemma searchParams_delete_none (name : string) (q : Query) :
  filter (fun nv => String.eqb (fst nv) name) (searchParams_delete name q) = [].
Proof.
  unfold searchParams_delete.
  induction q as [|[k v] q IH]; simpl; [reflexivity|].
  destruct (String.eqb k name) eqn:E; simpl; [exact IH|].
  rewrite E. exact IH.
Qed.

Lemma searchParams_set_once (name value : string) (q : Query) :
  filter (fun nv => String.eqb (fst nv) name) (searchParams_set name value q)
  = [(name, value)].
Proof.
  induction q as [|[k v] q IH]; simpl.
  - now rewrite String.eqb_refl.
  - destruct (String.eqb_spec k name) as [->|Hk]; simpl.
    + rewrite String.eqb_refl. now rewrite searchParams_delete_none.
    + apply String.eqb_neq in Hk. rewrite Hk. exact IH.
Qed.

(** X4. [updateUrlId(id)] rewrites the [id] parameter and nothing else of
    the address: afterwards the query holds exactly one [id] pair, with the
    new value, every other parameter reads as before, host and path are the
    same; and exactly one history entry is pushed, for [id] and the new
    address. *)
Theorem updateUrlId_rewrites_only_id (id : string) (w : World) :
  let w' := Js.exec (updateUrlId id) w in
  filter (fun nv => String.eqb (fst nv) "id") (search (location w')) = [("id", id)]
  /\ (forall n, n <> "id" ->
        searchParams_get n (search (location w'))
        = searchParams_get n (search (location w)))
  /\ hostname (location w') = hostname (location w)
  /\ rest_of_href (location w') = rest_of_href (location w)
  /\ history w' = (history w ++ [mkHistoryEntry id (location w')])%list
  /\ app w' = app w /\ document w' = document w.
Proof.
  unfold updateUrlId. js. repeat split.
  - apply searchParams_set_once.
  - intros n Hn. now apply searchParams_get_set_other.
Qed.

(** ** The manifest loader *)

Lemma loadNavData_never_rejects (local remote : Settled Response) (w : World) :
  exists nd, Js.result (loadNavData local remote) w = Fulfilled nd.
Proof.
  unfold loadNavData, Js.result, Js.bind, Js.get.
  destruct (isDev w).
  - destruct (loadNavData_local_returns local w) as [found E].
    unfold Js.result in E.
    destruct (loadNavData_local local w) as [r w1]. simpl in E. subst r.
    destruct found as [data|]; [eexists; reflexivity|].
    apply loadNavData_remote_returns.
  - simpl. apply loadNavData_remote_returns.
Qed.

Section WithPlatform.

Variable URL_href : string -> Location -> option string.

(** ** What loadContentById does and does not do *)

(** The first half on an own key whose uri resolves, with [#main-content]
    there: the frame is made only when there is none, and one request is
    made. *)
Lemma begin_own_world
    (id : string) (w : World) (item : NavItem) (frame : option Iframe)
    (url : string) :
  own_property id (navData (app w)) = Some item ->
  main_content (document w) = Some frame ->
  resolved URL_href (uri item) (location w) = Some url ->
  loadContentById_begin URL_href id w
  = (Fulfilled (Some (mkPending id url)),
     push_request url
       match frame with
       | Some _ => w
       | None =>
           set_document (fun d =>
             mkDocument (nav_container d)
                        (Some (Some (mkIframe "content-frame" EmptyString)))) w
       end).
Proof.
  intros Hown Hmain Hurl.
  unfold loadContentById_begin, getMainContent.
  unfold Js.bind at 1. unfold Js.get at 1.
  rewrite (property_own _ _ _ Hown). cbn [truthy negb uri_of].
  unfold Js.bind at 1. unfold Js.bind at 1. unfold Js.get at 1.
  rewrite Hmain. unfold Js.ret at 1.
  unfold Js.bind at 1. rewrite resolveUri_resolved, Hurl.
  destruct frame as [f|]; reflexivity.
Qed.

Lemma resume_success
    (p : Pending) (o : Settled Response) (html : string) (w : World) (f : Iframe) :
  page_arrives o html ->
  main_content (document w) = Some (Some f) ->
  let w' := Js.exec (loadContentById_resume p o) w in
  currentHtml (app w') = html
  /\ currentTitle (app w') = pending_id p ++ ".html"
  /\ main_content (document w') = Some (Some (mkIframe (className f) html))
  /\ console w' = console w.
Proof.
  intros (r & -> & Hok & Htext) Hmain.
  unfold loadContentById_resume. js. rewrite Hok, Htext. simpl.
  rewrite Hmain. simpl. auto.
Qed.

(** X5. For a key of [navData], when the page is requested (so
    [#main-content] is in the document and the uri of the entry resolves,
    to [url]) and arrives (OK response, body [html]), [loadContentById] puts
    [html] into the frame and caches it under the name [<key>.html]; a frame
    that was already there is reused (it keeps its class), a missing one is
    made with class [content-frame]; nothing is logged. *)
Theorem loadContentById_shows_and_caches_page
    (w : World) (id : string) (item : NavItem) (frame : option Iframe)
    (url : string) (o : Settled Response) (html : string) :
  own_property id (navData (app w)) = Some item ->
  main_content (document w) = Some frame ->
  resolved URL_href (uri item) (location w) = Some url ->
  page_arrives o html ->
  let w' := Js.exec (loadContentById URL_href id o) w in
  currentHtml (app w') = html
  /\ currentTitle (app w') = id ++ ".html"
  /\ main_content (document w')
     = Some (Some (mkIframe match frame with
                            | Some f => className f
                            | None => "content-frame"
                            end html))
  /\ console w' = console w.
Proof.
  intros Hown Hmain Hurl Harr.
  pose proof (begin_own_world id w item frame url Hown Hmain Hurl) as E.
  unfold loadContentById, Js.exec, Js.bind. rewrite E.
  destruct frame as [f|].
  - exact (resume_success (mkPending id url) o html (push_request url w) f
             Harr Hmain).
  - match goal with
    | |- context [loadContentById_resume _ _ ?w1] =>
        exact (resume_success (mkPending id url) o html w1
                 (mkIframe "content-frame" EmptyString) Harr eq_refl)
    end.
Qed.

(** X6. Unless [id] is a key of [navData] and [#main-content] is in the
    document, [loadContentById] makes no request and changes neither
    [state], nor the document, nor the address, nor the history.  An id the
    manifest object does not have at all is logged and the call returns; in
    the other cases the call throws. *)
Theorem loadContentById_without_key_or_container
    (w : World) (id : string) (o : Settled Response) :
  own_property id (navData (app w)) = None \/ main_content (document w) = None ->
  let w' := Js.exec (loadContentById URL_href id o) w in
  (requests w' = requests w /\ app w' = app w /\ document w' = document w
   /\ location w' = location w /\ history w' = history w)
  /\ (property (navData (app w)) id = Undefined ->
      loadContentById URL_href id o w
      = (Fulfilled tt,
         push_console (mkLogEntry ERROR ("找不到导航项: " ++ id) None) w))
  /\ (property (navData (app w)) id <> Undefined ->
      exists e, loadContentById URL_href id o w = (Rejected e, w)).
Proof.
  intros H.
  unfold loadContentById, loadContentById_begin, getMainContent, resolveUri,
    console_error. js.
  destruct (property (navData (app w)) id) as [|item|name] eqn:E; simpl.
  - repeat split; auto. intros K. now contradiction K.
  - apply property_Own_inv in E.
    destruct H as [H|H]; [congruence|]. rewrite H. simpl.
    repeat split; auto; try discriminate. intros _. eauto.
  - destruct (main_content (document w)) as [frame|]; simpl;
      (repeat split; auto; try discriminate); intros _; eauto.
Qed.

(** ** Handlers and the view *)

Lemma begin_keeps_view (id : string) :
  keeps_view (loadContentById_begin URL_href id).
Proof.
  intros w.
  unfold loadContentById_begin, getMainContent, resolveUri, console_error, view.
  js.
  destruct (property (navData (app w)) id) as [|item|name]; simpl; auto.
  - destruct (main_content (document w)) as [[f|]|]; simpl; auto;
      destruct (startsWith "http://" (uri item) || startsWith "https://" (uri item));
      simpl; try reflexivity;
      destruct (URL_href (uri item) (location w)); reflexivity.
  - destruct (main_content (document w)) as [[f|]|]; reflexivity.
Qed.

Lemma call_async_keeps_view (m : M (option Pending)) :
  keeps_view m -> keeps_view (call_async m).
Proof.
  intros H w. specialize (H w). unfold call_async. js.
  destruct (m w) as [[r|e] w']; simpl in *; assumption.
Qed.

Lemma call_async_fulfilled (m : M (option Pending)) (w : World) :
  exists p, Js.result (call_async m) w = Fulfilled p.
Proof.
  unfold call_async. js. destruct (m w) as [[r|e] w']; simpl; eauto.
Qed.

Lemma handleNavClick_keeps_view (id : string) :
  keeps_view (handleNavClick URL_href id).
Proof.
  intros w.
  pose proof (call_async_keeps_view _ (begin_keeps_view id) w) as H.
  unfold handleNavClick. js.
  destruct (activeId (app w)) as [a|]; [|exact H].
  destruct (String.eqb id a); [reflexivity|exact H].
Qed.

Lemma onPopstate_keeps_view (st : option string) :
  keeps_view (onPopstate URL_href st).
Proof.
  intros w. unfold onPopstate, getIdFromUrl. js.
  destruct (if truthy_string st then st
            else searchParams_get "id" (search (location w))) as [id'|];
    [|reflexivity].
  destruct (_ && _); [|reflexivity].
  apply (call_async_keeps_view _ (begin_keeps_view id') w).
Qed.

Lemma dispatch_view (m : M (option Pending)) (s : Session) :
  keeps_view m -> view (world (dispatch m s)) = view (world s).
Proof.
  intros H. specialize (H (world s)). unfold dispatch, Js.exec in *.
  destruct (m (world s)) as [[[p|]|e] w']; simpl in *; assumption.
Qed.

(** ** What init leaves behind *)

Lemma init_cases (local remote : Settled Response) (w : World)
      (r : Settled (option Pending)) (w' : World) :
  init URL_href local remote w = (r, w') ->
  exists nd,
    Js.result (loadNavData local remote) w = Fulfilled nd
    /\ app w' = mkAppState nd (activeId (app w)) (currentHtml (app w))
                           (currentTitle (app w))
    /\ history w' = history w
    /\ (exists p, r = Fulfilled p)
    /\ match nav_container (document w) with
       | None =>
           nav_container (document w') = None
           /\ popstate_listener w' = popstate_listener w
           /\ r = Fulfilled None
           /\ exists before e,
                console w' = (before ++ [mkLogEntry ERROR "应用初始化失败:" (Some e)])%list
       | Some _ =>
           nav_container (document w')
           = Some (map (fun e => createNavItemElement (fst e) (snd e)) nd)
           /\ popstate_listener w'
              = match nd with [] => popstate_listener w | _ :: _ => true end
           /\ (nd = [] -> r = Fulfilled None)
       end.
Proof.
  intros E0.
  pose proof (loadNavData_frame local remote w) as F.
  destruct (loadNavData_never_rejects local remote w) as [nd0 Hnd0].
  unfold init, Js.exec, Js.result, Js.try_catch in *.
  unfold Js.bind at 1 in E0.
  destruct (loadNavData local remote w) as [[nd|e] w1]; simpl in F, Hnd0;
    [|discriminate]. clear Hnd0.
  destruct F as (Fa & Fd & _ & Fh & Fp).
  unfold renderNav, getNavContainer, getIdFromUrl, console_log, console_error in E0.
  js. exists nd. rewrite Fd in E0.
  destruct (nav_container (document w)) as [els|] eqn:Hn; simpl in E0.
  2:{ injection E0 as <- <-. simpl. rewrite Fa, Fh, Fp, Fd.
      repeat split; eauto. }
  destruct nd as [|[first item0] rest]; simpl in E0.
  { injection E0 as <- <-. simpl. rewrite Fa, Fh, Fp. repeat split; eauto. }
  match type of E0 with
  | context [call_async ?m ?w2] =>
      pose proof (call_async_keeps_view m (begin_keeps_view _) w2) as A;
      destruct (call_async_fulfilled m w2) as [q B];
      unfold Js.exec, Js.result in A, B;
      destruct (call_async m w2) as [r0 w3]
  end.
  simpl in B. subst r0. unfold view in A. simpl in A.
  injection A as A1 A2 A3 A4.
  injection E0 as <- <-. simpl. rewrite A1, A2, A3. simpl. rewrite Fa, Fh.
  repeat split; eauto. discriminate.
Qed.

(** X7. [init] never throws, whatever the manifest requests give and
    whatever the document holds.  When [#nav-container] is missing it logs
    the failure after having stored the manifest: nothing is rendered, no
    page is requested and no [popstate] listener is attached. *)
Theorem init_never_throws (local remote : Settled Response) (w : World) :
  let w' := Js.exec (init URL_href local remote) w in
  (exists p, Js.result (init URL_href local remote) w = Fulfilled p)
  /\ (nav_container (document w) = None ->
      Js.result (init URL_href local remote) w = Fulfilled None
      /\ Js.result (loadNavData local remote) w = Fulfilled (navData (app w'))
      /\ nav_container (document w') = None
      /\ popstate_listener w' = popstate_listener w
      /\ exists before e,
           console w' = (before ++ [mkLogEntry ERROR "应用初始化失败:" (Some e)])%list).
Proof.
  unfold Js.exec, Js.result.
  destruct (init URL_href local remote w) as [r w'] eqn:E.
  destruct (init_cases _ _ _ _ _ E) as (nd & Hnd & Happ & _ & Hr & Hcase).
  simpl. split; [exact Hr|].
  intros Hnone. rewrite Hnone in Hcase.
  destruct Hcase as (H1 & H2 & H3 & H4).
  rewrite Happ. simpl. auto.
Qed.

(** X8. After [init] on a freshly loaded page, the [popstate] listener is
    attached exactly when [#nav-container] is in the document and the
    manifest that was loaded is not empty. *)
Theorem popstate_listener_iff_rendered_and_not_empty
    (doc : Document) (loc : Location) (local remote : Settled Response) :
  let s := start URL_href doc loc local remote in
  popstate_listener (world s) = true
  <-> nav_container doc <> None /\ navData (app (world s)) <> [].
Proof.
  unfold start.
  assert (V : forall r w', init URL_href local remote (world0 doc loc) = (r, w') ->
              world (dispatch (init URL_href local remote)
                              (mkSession (world0 doc loc) [])) = w').
  { intros r w' E. unfold dispatch. simpl. rewrite E.
    destruct r as [[p|]|e]; reflexivity. }
  destruct (init URL_href local remote (world0 doc loc)) as [r w'] eqn:E.
  cbv zeta. rewrite (V r w' eq_refl).
  destruct (init_cases _ _ _ _ _ E) as (nd & _ & Happ & _ & _ & Hcase).
  simpl in Hcase. rewrite Happ. simpl.
  destruct (nav_container doc) as [els|].
  - destruct Hcase as (_ & Hp & _). rewrite Hp.
    destruct nd; simpl; split; try discriminate; intuition congruence.
  - destruct Hcase as (_ & Hp & _). rewrite Hp. simpl.
    split; [discriminate|]. intros [H _]. now contradiction H.
Qed.

(** ** Coherence of state, highlighting and history *)

Lemma coherent_view (w w' : World) :
  view w' = view w -> coherent w -> coherent w'.
Proof.
  unfold view, coherent, nav_items. intros [= Ha Hn Hh _].
  now rewrite Ha, Hn, Hh.
Qed.

Lemma last_entry_snoc {A} (l : list A) (x : A) :
  last_entry (l ++ [x]) = Some x.
Proof. unfold last_entry. now rewrite rev_app_distr. Qed.

Lemma resume_cache (p : Pending) (o : Settled Response) (w : World) :
  let w' := Js.exec (loadContentById_resume p o) w in
  (currentHtml (app w') = EmptyString /\ currentTitle (app w') = EmptyString)
  \/ currentTitle (app w') = pending_id p ++ ".html".
Proof.
  unfold loadContentById_resume. js.
  destruct o as [r|e]; simpl; [|auto].
  destruct (ok r); simpl; [|auto].
  destruct (text r); simpl; auto.
Qed.

Lemma resume_coherent (p : Pending) (o : Settled Response) (w : World) :
  coherent w -> coherent (Js.exec (loadContentById_resume p o) w).
Proof.
  intros (_ & _ & Hkeys & _).
  destruct (resume_app p o w) as [Hnd Hact].
  destruct (resume_world p o w) as (Hnav & _ & Hhist & _).
  pose proof (resume_cache p o w) as Hcache.
  cbv zeta in *. unfold coherent, nav_items in *.
  rewrite Hnd, Hact, Hnav, Hhist, last_entry_snoc. simpl.
  repeat split.
  - destruct (nav_container (document w)) as [els|]; simpl in H; [|contradiction].
    apply in_map_iff in H as (el0 & <- & _).
    destruct (mark_active (pending_id p) el0) as (Ha & Hc & _). congruence.
  - destruct (nav_container (document w)) as [els|]; simpl in H; [|contradiction].
    apply in_map_iff in H as (el0 & <- & _).
    destruct (mark_active (pending_id p) el0) as (Ha & _ & Hd).
    rewrite Ha, Hd. intros E. apply String.eqb_eq in E. now rewrite E.
  - destruct (nav_container (document w)) as [els|]; simpl in H; [|contradiction].
    apply in_map_iff in H as (el0 & <- & _).
    destruct (mark_active (pending_id p) el0) as (Ha & _ & Hd).
    rewrite Ha, Hd. intros [= ->]. apply String.eqb_refl.
  - destruct (nav_container (document w)) as [els|]; simpl; [|congruence].
    intros _. rewrite map_map.
    rewrite <- Hkeys by discriminate.
    apply map_ext. intros el. now destruct (mark_active (pending_id p) el).
  - destruct Hcache as [Hc|Hc]; [left; exact Hc|right; eauto].
Qed.

Lemma start_coherent (doc : Document) (loc : Location)
      (local remote : Settled Response) :
  coherent (world (start URL_href doc loc local remote)).
Proof.
  unfold start.
  assert (V : forall r w', init URL_href local remote (world0 doc loc) = (r, w') ->
              world (dispatch (init URL_href local remote)
                              (mkSession (world0 doc loc) [])) = w').
  { intros r w' E. unfold dispatch. simpl. rewrite E.
    destruct r as [[p|]|e]; reflexivity. }
  destruct (init URL_href local remote (world0 doc loc)) as [r w'] eqn:E.
  rewrite (V r w' eq_refl).
  destruct (init_cases _ _ _ _ _ E) as (nd & _ & Happ & Hh & _ & Hcase).
  simpl in Happ, Hh, Hcase.
  unfold coherent, nav_items. rewrite Happ, Hh. simpl.
  destruct (nav_container doc) as [els|].
  - destruct Hcase as (Hn & _). rewrite Hn.
    repeat split; auto; try discriminate.
    + apply in_map_iff in H as (e & <- & _). reflexivity.
    + apply in_map_iff in H as (e & <- & _). discriminate.
    + intros _. unfold Object_keys. rewrite map_map. reflexivity.
  - destruct Hcase as (Hn & _). rewrite Hn.
    repeat split; auto; try contradiction.
Qed.

Lemma step_coherent (s : Session) (e : Event) :
  session_ok s -> coherent (world s) -> coherent (world (step URL_href s e)).
Proof.
  intros Hok Hc. destruct e as [id|st loc|k o]; simpl.
  - eapply coherent_view; [|exact Hc].
    apply dispatch_view, handleNavClick_keeps_view.
  - assert (Hc' : coherent (set_location loc (world s)))
      by (eapply coherent_view; [|exact Hc]; reflexivity).
    destruct (popstate_listener (world s)); [|exact Hc'].
    eapply coherent_view; [|exact Hc'].
    apply (dispatch_view _ (mkSession (set_location loc (world s)) (inflight s))),
      onPopstate_keeps_view.
  - destruct (nth_error (inflight s) k) as [p|]; [|exact Hc].
    simpl. now apply resume_coherent.
Qed.

Lemma run_coherent (es : list Event) (s : Session) :
  session_ok s -> coherent (world s) -> coherent (world (run URL_href s es)).
Proof.
  revert s. induction es as [|e es IH]; intros s Hok Hc; simpl; [assumption|].
  apply IH; [now apply step_ok|now apply step_coherent].
Qed.

Lemma reachable_coherent (doc : Document) (loc : Location)
      (local remote : Settled Response) (es : list Event) :
  coherent (world (run URL_href (start URL_href doc loc local remote) es)).
Proof. apply run_coherent; [apply start_ok|apply start_coherent]. Qed.

(** X9. After [init] on a freshly loaded page and any sequence of clicks,
    history traversals and settling requests, [state.activeId] is the key
    of the history entry pushed last, and [null] as long as none was
    pushed. *)
Theorem activeId_is_last_pushed_entry
    (doc : Document) (loc : Location) (local remote : Settled Response)
    (es : list Event) :
  let w := world (run URL_href (start URL_href doc loc local remote) es) in
  activeId (app w) = option_map entry_id (last_entry (history w)).
Proof. apply reachable_coherent. Qed.

(** X10. After [init] on a freshly loaded page and any sequence of clicks,
    history traversals and settling requests, a navigation entry is marked
    active exactly when its [data-id] is [state.activeId], it carries
    [aria-current] exactly when it is marked active, and the entries of a
    navigation that exists are those of the manifest, in its order. *)
Theorem highlighting_follows_activeId
    (doc : Document) (loc : Location) (local remote : Settled Response)
    (es : list Event) :
  let w := world (run URL_href (start URL_href doc loc local remote) es) in
  (forall el, In el (nav_items (document w)) ->
      aria_current el = active el
      /\ (active el = true <-> activeId (app w) = Some (data_id el)))
  /\ (nav_container (document w) <> None ->
      map data_id (nav_items (document w)) = Object_keys (navData (app w))).
Proof.
  destruct (reachable_coherent doc loc local remote es) as (_ & H2 & H3 & _).
  split; assumption.
Qed.

Lemma html_name_not_empty (a : string) : a ++ ".html" <> EmptyString.
Proof. destruct a; discriminate. Qed.

(** X11. After [init] on a freshly loaded page and any sequence of clicks,
    history traversals and settling requests, [handleDownload] either finds
    nothing cached and only alerts, or names the file after the active key:
    [<activeId>.html]; the name [page.html] it falls back to for an empty
    title is never needed. *)
Theorem download_is_named_after_active_key
    (doc : Document) (loc : Location) (local remote : Settled Response)
    (es : list Event) (p : SavePlatform) :
  let st := app (world (run URL_href (start URL_href doc loc local remote) es)) in
  (currentHtml st = EmptyString
   /\ handleDownload st p = [Alert "没有可下载的内容"])
  \/ (currentHtml st <> EmptyString
      /\ exists a, activeId st = Some a /\ fileName st = a ++ ".html").
Proof.
  destruct (reachable_coherent doc loc local remote es) as (_ & _ & _ & H).
  cbv zeta. unfold handleDownload, fileName.
  destruct (String.eqb_spec
              (currentHtml (app (world (run URL_href
                 (start URL_href doc loc local remote) es)))) EmptyString)
    as [E|N]; [left; auto|right].
  split; [exact N|].
  destruct H as [[H _]|(a & Ha & Ht)]; [contradiction|].
  exists a. split; [exact Ha|]. rewrite Ht.
  destruct (String.eqb_spec (a ++ ".html") EmptyString) as [K|_];
    [now apply html_name_not_empty in K|reflexivity].
Qed.

(** ** History traversal *)

(** X12. A history traversal whose id (the [id] of the entry's state or,
    when that is missing or empty, the [id] parameter of the new address)
    is missing, empty, or names nothing the manifest object has, only moves
    the address: nothing is requested, nothing else changes. *)
Theorem popstate_without_known_id_only_moves
    (s : Session) (st : option string) (loc : Location) :
  let id := if truthy_string st then st
            else searchParams_get "id" (search loc) in
  truthy_string id = false
  \/ (exists u, id = Some u /\ property (navData (app (world s))) u = Undefined) ->
  step URL_href s (Popstate st loc)
  = mkSession (set_location loc (world s)) (inflight s).
Proof.
  intros id H. simpl.
  destruct (popstate_listener (world s)); [|reflexivity].
  unfold dispatch, onPopstate, getIdFromUrl. js. fold id.
  destruct H as [H|(u & Hu & Hprop)].
  - destruct id as [u|]; [|reflexivity]. rewrite H. reflexivity.
  - rewrite Hu. simpl. rewrite Hprop. simpl. rewrite andb_false_r. reflexivity.
Qed.


(** The empty key is out of reach of a history traversal: the listener
    takes an empty id for a missing one. *)
Example popstate_skips_empty_key :
  let w := set_app (fun _ => mkAppState navData_with_empty_key None
                                        EmptyString EmptyString)
                   (sample_world None) in
  let loc := sample_location [("id", EmptyString)] in
  step sample_URL_href (mkSession w []) (Popstate (Some EmptyString) loc)
  = mkSession (set_location loc w) [].
Proof. reflexivity. Qed.

End WithPlatform.

(** ** Where the manifest comes from *)

(** X14. Outside development [loadNavData] makes one request, to the remote
    address, and never asks for the local file.  In development it asks for
    the local file first: when that answers OK with JSON the loader returns
    it and the remote address is not requested; when it fails, the remote
    address is requested next. *)
Theorem loadNavData_local_first_in_development
    (w : World) (local remote : Settled Response) :
  let w' := Js.exec (loadNavData local remote) w in
  (isDev w = false -> requests w' = (requests w ++ [NAV_DATA_URL])%list)
  /\ (isDev w = true ->
      forall r data, local = Fulfilled r -> ok r = true -> json r = Fulfilled data ->
        Js.result (loadNavData local remote) w = Fulfilled data
        /\ requests w' = (requests w ++ ["./nav_data.json"])%list)
  /\ (isDev w = true -> manifest_fetch_fails local = true ->
      requests w' = (requests w ++ ["./nav_data.json"; NAV_DATA_URL])%list).
Proof.
  assert (R : forall w0, requests (snd (loadNavData_remote remote w0))
                         = (requests w0 ++ [NAV_DATA_URL])%list).
  { intros w0. unfold loadNavData_remote, fetch, console_log, console_error. js.
    destruct remote as [r|e]; simpl; [|reflexivity].
    destruct (ok r); simpl; [|reflexivity].
    destruct (json r); reflexivity. }
  unfold loadNavData. js. repeat split.
  - intros Hdev. rewrite Hdev. simpl. apply R.
  - rewrite H. unfold loadNavData_local, fetch, console_log. js.
    rewrite H0. simpl. rewrite H1, H2. reflexivity.
  - rewrite H. unfold loadNavData_local, fetch, console_log. js.
    rewrite H0. simpl. rewrite H1, H2. reflexivity.
  - intros Hdev Hfail. rewrite Hdev.
    unfold loadNavData_local, fetch, console_log, console_warn. js.
    destruct local as [r|e]; simpl in *.
    + destruct (ok r); simpl in *.
      * destruct (json r); simpl in *; [discriminate|].
        rewrite R. simpl. now rewrite <- app_assoc.
      * rewrite R. simpl. now rewrite <- app_assoc.
    + rewrite R. simpl. now rewrite <- app_assoc.
Qed.

(** ** Download *)

Section Download.

Variable URL_href : string -> Location -> option string.

(** X15. After the page request of a selection has been made (key of
    [navData] whose uri resolves, [#main-content] in the document) and has
    failed, [handleDownload] offers nothing: it alerts that there is nothing
    to download, whatever the platform. *)
Theorem nothing_to_download_after_failed_fetch
    (w : World) (id : string) (item : NavItem) (frame : option Iframe)
    (url : string) (o : Settled Response) (p : SavePlatform) :
  own_property id (navData (app w)) = Some item ->
  main_content (document w) = Some frame ->
  resolved URL_href (uri item) (location w) = Some url ->
  page_fetch_fails o = true ->
  handleDownload (app (Js.exec (loadContentById URL_href id o) w)) p
  = [Alert "没有可下载的内容"].
Proof.
  intros Hown Hmain Hurl Hfail.
  destruct (begin_own URL_href id w item frame url Hown Hmain Hurl)
    as (w1 & E & _ & _ & [f Hf] & _).
  unfold loadContentById, Js.exec, Js.bind. rewrite E.
  destruct (resume_failure (mkPending id url) o w1 f Hfail Hf) as (H1 & _).
  unfold Js.exec in H1. unfold handleDownload. now rewrite H1.
Qed.

End Download.

Lemma download_catch_silent (e : DomError) :
  error_name e = "AbortError" -> download_catch e = [].
Proof. unfold download_catch. now intros ->. Qed.

(** X16. What [handleDownload] saves is the cached page: a write through
    the file picker happens only after the dialog, the writable and the
    write all succeeded, an anchor download only when the platform has no
    file picker, and in both cases the content is [state.currentHtml], not
    empty, under the name [fileName].  And a failure is logged unless it is
    the user's abort: when every failing step is an [AbortError], nothing is
    written to the console. *)
Theorem handleDownload_saves_cache_and_ignores_abort
    (s : AppState) (p : SavePlatform) :
  (forall name c, In (Written name c) (handleDownload s p) ->
      has_showSaveFilePicker p = true
      /\ showSaveFilePicker p = Succeeds /\ createWritable p = Succeeds
      /\ write p = Succeeds
      /\ name = fileName s /\ c = currentHtml s /\ c <> EmptyString)
  /\ (forall name c, In (AnchorDownload name c) (handleDownload s p) ->
      has_showSaveFilePicker p = false
      /\ name = fileName s /\ c = currentHtml s /\ c <> EmptyString)
  /\ (only_aborts p -> silent (handleDownload s p)).
Proof.
  unfold handleDownload, only_aborts, silent.
  destruct (String.eqb_spec (currentHtml s) EmptyString) as [E|N].
  { split; [|split].
    - intros name c [H|[]]. discriminate H.
    - intros name c [H|[]]. discriminate H.
    - intros _ m e [H|[]]. discriminate H. }
  assert (C : forall e name c, ~ In (Written name c) (download_catch e)).
  { intros e name c. unfold download_catch.
    destruct (String.eqb (error_name e) "AbortError"); simpl; [tauto|].
    intros [H|[]]. discriminate H. }
  destruct (has_showSaveFilePicker p).
  2:{ split; [|split].
      - intros name c [H|[]]. discriminate H.
      - intros name c [H|[]]. inversion H; subst. auto.
      - intros _ m e [H|[]]. discriminate H. }
  split; [|split].
  - intros name c [H|H]; [discriminate H|].
    destruct (showSaveFilePicker p); [|now apply C in H].
    destruct (createWritable p); [|now apply C in H].
    destruct (write p); [|now apply C in H].
    destruct H as [H|H].
    + inversion H; subst. repeat split; auto.
    + destruct (close p); [destruct H as [H|[]]; discriminate H|now apply C in H].
  - intros name c [H|H]; [discriminate H|].
    assert (D : forall e, ~ In (AnchorDownload name c) (download_catch e)).
    { intros e. unfold download_catch.
      destruct (String.eqb (error_name e) "AbortError"); simpl; [tauto|].
      intros [K|[]]. discriminate K. }
    destruct (showSaveFilePicker p); [|now apply D in H].
    destruct (createWritable p); [|now apply D in H].
    destruct (write p); [|now apply D in H].
    destruct H as [H|H]; [discriminate H|].
    destruct (close p); [destruct H as [H|[]]; discriminate H|now apply D in H].
  - intros Hab m e [H|H]; [discriminate H|].
    pose proof (Hab (showSaveFilePicker p) (or_introl eq_refl)) as A1.
    pose proof (Hab (createWritable p) (or_intror (or_introl eq_refl))) as A2.
    pose proof (Hab (write p) (or_intror (or_intror (or_introl eq_refl)))) as A3.
    pose proof (Hab (close p)
                  (or_intror (or_intror (or_intror (or_introl eq_refl))))) as A4.
    destruct (showSaveFilePicker p);
      [|rewrite (download_catch_silent _ A1) in H; exact H].
    destruct (createWritable p);
      [|rewrite (download_catch_silent _ A2) in H; exact H].
    destruct (write p);
      [|rewrite (download_catch_silent _ A3) in H; exact H].
    destruct H as [H|H]; [discriminate H|].
    destruct (close p);
      [|rewrite (download_catch_silent _ A4) in H; exact H].
    destruct H as [H|[]]. discriminate H.
Qed.

(** ** Mobile menu *)

Lemma menu_step_balanced (l : MenuListeners) (d : MenuDom) (e : MenuEvent) :
  sidebar_open d = overlay_active d ->
  sidebar_open (menu_step l d e) = overlay_active (menu_step l d e).
Proof.
  intros H. destruct e; simpl.
  - destruct (on_menu_btn l); simpl; [now rewrite H|exact H].
  - destruct (on_overlay l); simpl; [now rewrite H|exact H].
  - destruct (on_nav_container l); simpl; [now rewrite H|exact H].
Qed.

Lemma menu_fold_balanced (l : MenuListeners) (es : list MenuEvent) (d : MenuDom) :
  sidebar_open d = overlay_active d ->
  sidebar_open (fold_left (menu_step l) es d)
  = overlay_active (fold_left (menu_step l) es d).
Proof.
  revert d. induction es as [|e es IH]; intros d H; simpl; [exact H|].
  apply IH. now apply menu_step_balanced.
Qed.

(** X17. The overlay follows the sidebar: starting from a page where the
    sidebar is open exactly when the overlay is active, this stays so after
    any sequence of clicks on the menu button, the overlay and the
    navigation; and a sequence that ends with a click on the overlay, all
    three menu elements being in the page, leaves the menu closed. *)
Theorem overlay_follows_sidebar (d : MenuDom) (es : list MenuEvent) :
  sidebar_open d = overlay_active d ->
  sidebar_open (menu_run d es) = overlay_active (menu_run d es)
  /\ (has_menu_btn d = true -> sidebar_open d <> None ->
      sidebar_open (menu_run d (es ++ [OverlayClick])) = Some false
      /\ overlay_active (menu_run d (es ++ [OverlayClick])) = Some false).
Proof.
  intros H. unfold menu_run. split; [now apply menu_fold_balanced|].
  intros Hbtn Hside.
  assert (L : on_overlay (setupMobileMenu d) = true).
  { unfold setupMobileMenu. rewrite Hbtn.
    destruct (sidebar_open d); [|contradiction].
    rewrite <- H. reflexivity. }
  assert (K : forall es0 d0, sidebar_open d0 <> None ->
              sidebar_open (fold_left (menu_step (setupMobileMenu d)) es0 d0) <> None).
  { induction es0 as [|e es0 IH]; intros d0 H0; simpl; [exact H0|].
    apply IH. destruct e; simpl;
      [destruct (on_menu_btn _)|destruct (on_overlay _)
      |destruct (on_nav_container _)]; simpl; auto;
      destruct (sidebar_open d0); simpl; congruence. }
  pose proof (menu_fold_balanced (setupMobileMenu d) es d H) as B.
  specialize (K es d Hside).
  rewrite fold_left_app. simpl. rewrite L. simpl. rewrite <- B.
  destruct (sidebar_open (fold_left _ es d)); [auto|contradiction].
Qed.

(** ** The properties at sample inputs *)

Lemma renderNav_one_element_per_entry_witness :
  nav_container (document (sample_world None)) = Some []
  /\ map data_id (nav_items (document (Js.exec (renderNav two_pages)
                                               (sample_world None))))
     = ["a"; "b"].
Proof.
  split; [reflexivity|].
  exact (proj1 (proj2 (proj1 (renderNav_one_element_per_entry two_pages
                                 (sample_world None)) [] eq_refl))).
Defined.

Lemma updateNavActiveState_marks_exactly_one_witness :
  NoDup (map data_id (nav_items (document rendered_world)))
  /\ In "b" (map data_id (nav_items (document rendered_world)))
  /\ exists el,
       filter active (nav_items (document (Js.exec (updateNavActiveState "b")
                                                   rendered_world))) = [el]
       /\ data_id el = "b" /\ aria_current el = true.
Proof.
  assert (Hnd : NoDup (map data_id (nav_items (document rendered_world)))).
  { repeat constructor; simpl; intuition discriminate. }
  assert (Hin : In "b" (map data_id (nav_items (document rendered_world))))
    by (right; left; reflexivity).
  split; [exact Hnd|]. split; [exact Hin|].
  exact (proj1 (updateNavActiveState_marks_exactly_one "b" rendered_world Hnd) Hin).
Defined.

Lemma updateUrlId_rewrites_only_id_witness :
  let w := set_location (sample_location [("lang", "zh"); ("id", "a")])
                        (sample_world None) in
  "lang" <> "id"
  /\ searchParams_get "lang" (search (location (Js.exec (updateUrlId "b") w)))
     = Some "zh".
Proof.
  assert (H : "lang" <> "id") by discriminate.
  split; [exact H|].
  exact (proj1 (proj2 (updateUrlId_rewrites_only_id "b"
           (set_location (sample_location [("lang", "zh"); ("id", "a")])
                         (sample_world None)))) "lang" H).
Defined.

Lemma loadContentById_shows_and_caches_page_witness :
  own_property "home" (navData (app (sample_world None))) = Some sample_item
  /\ main_content (document (sample_world None)) = Some None
  /\ resolved sample_URL_href (uri sample_item) (location (sample_world None))
     = Some "https://example.org/pages/home.html"
  /\ page_arrives (ok_response []) "<p>home</p>"
  /\ let w' := Js.exec (loadContentById sample_URL_href "home" (ok_response []))
                       (sample_world None) in
     currentHtml (app w') = "<p>home</p>" /\ currentTitle (app w') = "home.html".
Proof.
  assert (H : page_arrives (ok_response []) "<p>home</p>")
    by (eexists; repeat split; reflexivity).
  do 3 (split; [reflexivity|]). split; [exact H|].
  pose proof (loadContentById_shows_and_caches_page sample_URL_href
                (sample_world None) "home" sample_item None
                "https://example.org/pages/home.html" (ok_response [])
                "<p>home</p>" eq_refl eq_refl eq_refl H) as K.
  split; [exact (proj1 K)|exact (proj1 (proj2 K))].
Defined.

Lemma loadContentById_without_key_or_container_witness :
  own_property "about" (navData (app (sample_world None))) = None
  /\ property (navData (app (sample_world None))) "about" = Undefined
  /\ requests (Js.exec (loadContentById sample_URL_href "about" (ok_response []))
                       (sample_world None))
     = requests (sample_world None).
Proof.
  do 2 (split; [reflexivity|]).
  exact (proj1 (proj1 (loadContentById_without_key_or_container sample_URL_href
                         (sample_world None) "about" (ok_response [])
                         (or_introl eq_refl)))).
Defined.

Lemma init_never_throws_witness :
  let w := world0 (mkDocument None (Some None)) (sample_location []) in
  nav_container (document w) = None
  /\ Js.result (init sample_URL_href failed_request (ok_response sample_navData)) w
     = Fulfilled None.
Proof.
  split; [reflexivity|].
  exact (proj1 (proj2 (init_never_throws sample_URL_href failed_request
                         (ok_response sample_navData)
                         (world0 (mkDocument None (Some None)) (sample_location [])))
                      eq_refl)).
Defined.

Lemma highlighting_follows_activeId_witness :
  let w := world (run sample_URL_href
                      (start sample_URL_href sample_document (sample_location [])
                             failed_request (ok_response two_pages))
                      [Settle 0 (ok_response []); Click "b"; Settle 0 failed_request]) in
  nav_container (document w) <> None
  /\ map data_id (nav_items (document w)) = Object_keys (navData (app w)).
Proof.
  assert (H : nav_container (document (world (run sample_URL_href
                (start sample_URL_href sample_document (sample_location [])
                       failed_request (ok_response two_pages))
                [Settle 0 (ok_response []); Click "b"; Settle 0 failed_request])))
              <> None) by (vm_compute; discriminate).
  split; [exact H|].
  exact (proj2 (highlighting_follows_activeId sample_URL_href sample_document
                  (sample_location []) failed_request (ok_response two_pages)
                  [Settle 0 (ok_response []); Click "b"; Settle 0 failed_request])
               H).
Defined.

Lemma popstate_without_known_id_only_moves_witness :
  let s := mkSession (sample_world (Some "home")) [] in
  truthy_string (searchParams_get "id" (search (sample_location []))) = false
  /\ step sample_URL_href s (Popstate None (sample_location []))
     = mkSession (set_location (sample_location []) (world s)) (inflight s).
Proof.
  split; [reflexivity|].
  exact (popstate_without_known_id_only_moves sample_URL_href
           (mkSession (sample_world (Some "home")) []) None (sample_location [])
           (or_introl eq_refl)).
Defined.


Lemma loadNavData_local_first_in_development_witness :
  let w := set_location (mkLocation "localhost" "http://localhost:8000/" [])
                        (sample_world None) in
  isDev w = true
  /\ Js.result (loadNavData (ok_response sample_navData) failed_request) w
     = Fulfilled sample_navData
  /\ requests (Js.exec (loadNavData (ok_response sample_navData) failed_request) w)
     = ["./nav_data.json"].
Proof.
  split; [reflexivity|].
  exact (proj1 (proj2 (loadNavData_local_first_in_development
           (set_location (mkLocation "localhost" "http://localhost:8000/" [])
                         (sample_world None))
           (ok_response sample_navData) failed_request))
         eq_refl _ sample_navData eq_refl eq_refl eq_refl).
Defined.

Lemma nothing_to_download_after_failed_fetch_witness :
  own_property "home" (navData (app (sample_world None))) = Some sample_item
  /\ main_content (document (sample_world None)) = Some None
  /\ resolved sample_URL_href (uri sample_item) (location (sample_world None))
     = Some "https://example.org/pages/home.html"
  /\ page_fetch_fails failed_request = true
  /\ handleDownload
       (app (Js.exec (loadContentById sample_URL_href "home" failed_request)
                     (sample_world None)))
       dismissing_platform
     = [Alert "没有可下载的内容"].
Proof.
  do 4 (split; [reflexivity|]).
  exact (nothing_to_download_after_failed_fetch sample_URL_href
           (sample_world None) "home" sample_item None
           "https://example.org/pages/home.html" failed_request
           dismissing_platform eq_refl eq_refl eq_refl eq_refl).
Defined.

Lemma handleDownload_saves_cache_and_ignores_abort_witness :
  only_aborts dismissing_platform
  /\ silent (handleDownload (mkAppState sample_navData (Some "home")
                                        "<p>home</p>" "home.html")
                            dismissing_platform).
Proof.
  assert (H : only_aborts dismissing_platform).
  { intros a Ha. simpl in Ha.
    destruct Ha as [<-|[<-|[<-|[<-|[]]]]]; simpl; auto. }
  split; [exact H|].
  exact (proj2 (proj2 (handleDownload_saves_cache_and_ignores_abort
           (mkAppState sample_navData (Some "home") "<p>home</p>" "home.html")
           dismissing_platform)) H).
Defined.

Lemma overlay_follows_sidebar_witness :
  sidebar_open closed_menu = overlay_active closed_menu
  /\ sidebar_open (menu_run closed_menu [MenuBtnClick; NavContainerClick; MenuBtnClick])
     = overlay_active (menu_run closed_menu
                                [MenuBtnClick; NavContainerClick; MenuBtnClick]).
Proof.
  split; [reflexivity|].
  exact (proj1 (overlay_follows_sidebar closed_menu
                  [MenuBtnClick; NavContainerClick; MenuBtnClick] eq_refl)).
Defined.

End ControllerExtras.

(* ================================================================== *)
(** * Further properties of the sync script                            *)
(* ================================================================== *)

Module DevScriptExtras.

Import DevScript.
Import DevScriptFacts.

(** ** Strings and file names *)

Lemma length_append (s t : string) :
  String.length (s ++ t) = String.length s + String.length t.
Proof. induction s as [|c s IH]; simpl; [reflexivity|now rewrite IH]. Qed.

Lemma append_cancel_r (s1 s2 t : string) : s1 ++ t = s2 ++ t -> s1 = s2.
Proof.
  revert s2. induction s1 as [|c s1 IH]; intros [|c2 s2] H; simpl in H.
  - reflexivity.
  - exfalso. apply (f_equal String.length) in H. simpl in H.
    rewrite length_append in H.
    induction (String.length t) as [|n IHn]; simpl in H.
    + discriminate.
    + rewrite <- plus_n_Sm in H. injection H as H. now apply IHn.
  - exfalso. apply (f_equal String.length) in H. simpl in H.
    rewrite length_append in H.
    induction (String.length t) as [|n IHn]; simpl in H.
    + discriminate.
    + rewrite <- plus_n_Sm in H. injection H as H. now apply IHn.
  - injection H as -> H. f_equal. now apply IH.
Qed.

Lemma write_file_fresh (name content : string) (d : list (string * string)) :
  ~ In name (map fst d) -> write_file name content d = (d ++ [(name, content)])%list.
Proof.
  induction d as [|[n c] d IH]; simpl; [reflexivity|].
  intros H. destruct (String.eqb_spec n name) as [E|_].
  - exfalso. apply H. now left.
  - f_equal. apply IH. intros K. apply H. now right.
Qed.

Lemma NoDup_html (navData : NavData) :
  NoDup (Object_keys navData) ->
  NoDup (map (fun e : string * NavItem => fst e ++ ".html") navData).
Proof.
  unfold Object_keys.
  induction navData as [|[k v] nd IH]; simpl; intros H; [constructor|].
  inversion H as [|x xs Hx Hrest]; subst. constructor; [|now apply IH].
  intros K. apply in_map_iff in K as ([k' v'] & E & Hin). simpl in E.
  apply append_cancel_r in E. subst k'.
  apply Hx. apply in_map_iff. now exists (k, v').
Qed.

Lemma fetched_text_None (o : Settled Response) :
  fetched_text o = None <-> text_fetch_fails o = true.
Proof.
  unfold fetched_text, text_fetch_fails.
  destruct o as [r|e]; [|tauto].
  destruct (ok r); simpl; [|tauto].
  destruct (text r); split; congruence.
Qed.

Section WithPlatform.

Variable net : string -> Settled Response.
Variable JSON_parse : string -> Settled NavData.
Variable locate : string -> Place.

(** ** One page *)

Lemma syncPage_fs (entry : string * NavItem) (w : Process)
      (d : list (string * string)) :
  pages (fs w) = Some d ->
  plain_name locate (fst entry) ->
  fs (Js.exec (syncPage net locate entry) w)
  = mkFileSystem (nav_data_json (fs w))
      (Some match fetched_text (net (uri (snd entry))) with
            | Some content => write_file (fst entry ++ ".html") content d
            | None => d
            end)
      (elsewhere (fs w)).
Proof.
  intros Hd Hloc. unfold plain_name in Hloc.
  unfold syncPage, fetchText, writeFileSync_page, log, console_log, fetched_text.
  rewrite Hloc. js.
  destruct (net (uri (snd entry))) as [r|e]; simpl.
  - destruct (ok r); simpl.
    + destruct (text r); simpl.
      * rewrite Hd. reflexivity.
      * rewrite <- Hd. now destruct (fs w).
    + rewrite <- Hd. now destruct (fs w).
  - rewrite <- Hd. now destruct (fs w).
Qed.

Lemma syncPage_fetched (entry : string * NavItem) (w : Process) :
  fetched (Js.exec (syncPage net locate entry) w)
  = (fetched w ++ [uri (snd entry)])%list.
Proof.
  unfold syncPage, fetchText, writeFileSync_page, log, console_log. js.
  destruct (net (uri (snd entry))) as [r|e]; simpl; [|reflexivity].
  destruct (ok r); simpl; [|reflexivity].
  destruct (text r); simpl; [|reflexivity].
  destruct (locate (fst entry ++ ".html")) as [name|path|message]; simpl;
    try reflexivity.
  destruct (pages (fs w)); reflexivity.
Qed.

(** ** The page loop *)

Lemma syncPages_fetched (navData : NavData) (w : Process) :
  fetched (Js.exec (syncPages net locate navData) w)
  = (fetched w ++ map (fun e => uri (snd e)) navData)%list.
Proof.
  revert w. induction navData as [|entry rest IH]; intros w.
  - simpl. now rewrite app_nil_r.
  - unfold Js.exec in *. rewrite syncPages_cons. unfold Js.exec.
    rewrite IH. pose proof (syncPage_fetched entry w) as F.
    unfold Js.exec in F. rewrite F. simpl. now rewrite <- app_assoc.
Qed.

Lemma syncPages_fs (navData : NavData) (w : Process) (d : list (string * string)) :
  pages (fs w) = Some d ->
  Forall (plain_name locate) (Object_keys navData) ->
  NoDup (map fst d
         ++ map (fun e : string * NavItem => (fst e ++ ".html")%string) navData)%list ->
  fs (Js.exec (syncPages net locate navData) w)
  = mkFileSystem (nav_data_json (fs w)) (Some (d ++ synced_files net navData)%list)
      (elsewhere (fs w)).
Proof.
  revert w d. induction navData as [|[key item] rest IH]; intros w d Hd Hpl Hnd.
  - unfold Js.exec, syncPages. simpl. rewrite app_nil_r, <- Hd.
    now destruct (fs w).
  - unfold Js.exec in *. rewrite syncPages_cons.
    unfold Object_keys in Hpl. simpl in Hpl.
    inversion Hpl as [|x xs Hkey Hkeys]; subst.
    pose proof (syncPage_fs (key, item) w d Hd Hkey) as F. simpl in F, Hnd.
    pose proof (NoDup_remove_2 _ _ _ Hnd) as Hfresh.
    pose proof (NoDup_remove_1 _ _ _ Hnd) as Hrest.
    simpl synced_files.
    destruct (fetched_text (net (uri item))) as [content|].
    + rewrite write_file_fresh in F
        by (intros K; apply Hfresh; apply in_or_app; now left).
      rewrite (IH _ (d ++ [((key ++ ".html")%string, content)])%list).
      * rewrite F. simpl. now rewrite <- app_assoc.
      * now rewrite F.
      * exact Hkeys.
      * rewrite map_app. simpl. now rewrite <- app_assoc.
    + rewrite (IH _ d); [now rewrite F|now rewrite F|exact Hkeys|exact Hrest].
Qed.

(** ** A sync whose manifest arrives and parses *)

Lemma syncResources_with_manifest
    (w : Process) (r : Response) (t : string) (navData : NavData) :
  net NAV_DATA_URL = Fulfilled r -> ok r = true -> text r = Fulfilled t ->
  JSON_parse t = Fulfilled navData ->
  exists w0 line,
    syncResources net JSON_parse locate w
    = (Fulfilled tt, push_stdout line (Js.exec (syncPages net locate navData) w0))
    /\ fs w0 = mkFileSystem (Some t) (Some []) (elsewhere (fs w))
    /\ fetched w0 = (fetched w ++ [NAV_DATA_URL])%list
    /\ spawned w0 = spawned w.
Proof.
  intros Hnet Hok Htext Hparse.
  unfold syncResources, log, console_log, writeFileSync_navData,
    existsSync_pages, rmSync_pages, mkdirSync_pages.
  unfold Js.bind, Js.modify, Js.get, Js.ret.
  rewrite Hnet, (fetchText_success _ _ _ _ Hok Htext), Hparse.
  cbn [Js.await Js.ret].
  cbn [fs pages nav_data_json elsewhere push_stdout set_fs push_fetched].
  destruct (pages (fs w)) as [d|] eqn:Hp;
    cbn [fs pages nav_data_json elsewhere push_stdout set_fs push_fetched];
    match goal with
    | |- context [syncPages net locate navData ?w0] =>
        pose proof (syncPages_returns net locate navData w0) as R;
        unfold Js.result in R; exists w0;
        destruct (syncPages net locate navData w0) as [res w1] eqn:E
    end;
    simpl in R; subst res; eexists;
    (split; [unfold Js.exec; rewrite E; reflexivity|]);
    cbn [fs pages nav_data_json elsewhere fetched spawned push_stdout set_fs
         push_fetched];
    rewrite ?Hp; auto.
Qed.

(** X18. A sync whose manifest arrives and parses makes the manifest
    request and then exactly one request per manifest entry, for its [uri],
    in manifest order, whether or not pages fail on the way. *)
Theorem sync_requests_each_page_once_in_order
    (w : Process) (r : Response) (t : string) (navData : NavData) :
  net NAV_DATA_URL = Fulfilled r -> ok r = true -> text r = Fulfilled t ->
  JSON_parse t = Fulfilled navData ->
  fetched (Js.exec (syncResources net JSON_parse locate) w)
  = (fetched w ++ NAV_DATA_URL :: map (fun e => uri (snd e)) navData)%list.
Proof.
  intros Hnet Hok Htext Hparse.
  destruct (syncResources_with_manifest w r t navData Hnet Hok Htext Hparse)
    as (w0 & line & E & _ & Hf & _).
  unfold Js.exec. rewrite E. cbn [snd fetched push_stdout].
  rewrite (syncPages_fetched navData w0), Hf. now rewrite <- app_assoc.
Qed.

(** X19. A sync whose manifest arrives and parses, its keys pairwise
    distinct and each of them a plain file name (so that [<key>.html] lies
    directly in the pages directory, under that name), leaves the manifest
    text in [nav_data.json] and, in the pages directory, exactly one file
    [<key>.html] for each entry whose page could be fetched, holding the
    fetched body, in manifest order; whatever the directory held before is
    gone, and no file outside it is touched. *)
Theorem sync_mirrors_manifest
    (w : Process) (r : Response) (t : string) (navData : NavData) :
  net NAV_DATA_URL = Fulfilled r -> ok r = true -> text r = Fulfilled t ->
  JSON_parse t = Fulfilled navData ->
  NoDup (Object_keys navData) ->
  Forall (plain_name locate) (Object_keys navData) ->
  Js.result (syncResources net JSON_parse locate) w = Fulfilled tt
  /\ fs (Js.exec (syncResources net JSON_parse locate) w)
     = mkFileSystem (Some t) (Some (synced_files net navData)) (elsewhere (fs w)).
Proof.
  intros Hnet Hok Htext Hparse Hnd Hpl.
  destruct (syncResources_with_manifest w r t navData Hnet Hok Htext Hparse)
    as (w0 & line & E & Hfs & _).
  unfold Js.exec, Js.result. rewrite E. split; [reflexivity|].
  cbn [snd fs push_stdout].
  rewrite (syncPages_fs navData w0 []).
  - now rewrite Hfs.
  - now rewrite Hfs.
  - exact Hpl.
  - simpl. now apply NoDup_html.
Qed.

(** ** A manifest that does not parse *)

Lemma syncResources_parse_failure
    (w : Process) (r : Response) (t : string) (e : JsThrown) :
  net NAV_DATA_URL = Fulfilled r -> ok r = true -> text r = Fulfilled t ->
  JSON_parse t = Rejected e ->
  exists w',
    syncResources net JSON_parse locate w = (Rejected e, w')
    /\ fs w' = mkFileSystem (Some t) (pages (fs w)) (elsewhere (fs w))
    /\ fetched w' = (fetched w ++ [NAV_DATA_URL])%list
    /\ spawned w' = spawned w.
Proof.
  intros Hnet Hok Htext Hparse.
  unfold syncResources, log, console_log, writeFileSync_navData.
  unfold Js.bind, Js.modify, Js.get, Js.ret.
  rewrite Hnet, (fetchText_success _ _ _ _ Hok Htext), Hparse.
  cbn [Js.await Js.throw]. eexists. split; [reflexivity|].
  cbn [fs pages nav_data_json elsewhere fetched spawned push_stdout set_fs
       push_fetched].
  auto.
Qed.

(** X20. The manifest is written before it is parsed: when the manifest
    request succeeds with a text that is not JSON, a run that syncs exits
    with code 1 having stored that text in [nav_data.json]; the pages
    directory and every other file are left as they were, no page is
    requested and no server is started. *)
Theorem unparsable_manifest_is_written_then_fatal
    (argv : list string) (server : ServerEvent) (w : Process)
    (r : Response) (t : string) (e : JsThrown) :
  net NAV_DATA_URL = Fulfilled r -> ok r = true -> text r = Fulfilled t ->
  JSON_parse t = Rejected e ->
  includes "--serve" (skipn 2 argv) = false ->
  let w' := Js.exec (main net JSON_parse locate argv server) w in
  Js.result (main net JSON_parse locate argv server) w = Fulfilled 1
  /\ fs w' = mkFileSystem (Some t) (pages (fs w)) (elsewhere (fs w))
  /\ fetched w' = (fetched w ++ [NAV_DATA_URL])%list
  /\ spawned w' = spawned w.
Proof.
  intros Hnet Hok Htext Hparse Hserve.
  unfold main, Js.exec, Js.result. rewrite Hserve.
  unfold Js.try_catch, Js.bind, console_log, Js.modify. cbn [negb].
  match goal with
  | |- context [syncResources net JSON_parse locate ?w0] =>
      destruct (syncResources_parse_failure w0 r t e Hnet Hok Htext Hparse)
        as (w1 & E & Hfs & Hf & Hs)
  end.
  rewrite E. unfold log, console_log, Js.modify, Js.ret.
  cbn [fst snd fs fetched spawned push_stdout].
  rewrite Hfs, Hf, Hs. auto.
Qed.

(** ** The exit code *)




(** X22. With [--serve] and without [--sync], [main] goes straight to the
    server: it makes no request, leaves the file system as it is, and
    spawns [file_server .] once. *)
Theorem serve_flag_skips_sync (argv : list string) (server : ServerEvent) (w : Process) :
  includes "--serve" (skipn 2 argv) = true ->
  includes "--sync" (skipn 2 argv) = false ->
  let w' := Js.exec (main net JSON_parse locate argv server) w in
  fetched w' = fetched w
  /\ fs w' = fs w
  /\ spawned w' = (spawned w ++ [mkSpawn "file_server" ["."]])%list.
Proof.
  intros Hserve Hsync. unfold main, Js.exec. rewrite Hserve, Hsync.
  unfold startServer, on_close_after_error, log, console_log. js.
  destruct server as [e|m [|n]|[[|c]|]]; simpl; auto.
Qed.

End WithPlatform.

(** ** Arguments *)

Lemma includes_insert (flag x : string) (pre post : list string) :
  x <> flag ->
  includes flag (pre ++ x :: post) = includes flag (pre ++ post).
Proof.
  intros H. unfold includes. rewrite !existsb_app. simpl.
  destruct (String.eqb_spec flag x) as [E|_]; [congruence|reflexivity].
Qed.

(** X23. An argument other than [--sync] and [--serve] is ignored: with or
    without it, wherever it stands among the arguments, [main] does the
    same. *)
Theorem other_arguments_are_ignored
    (net : string -> Settled Response) (JSON_parse : string -> Settled NavData)
    (locate : string -> Place)
    (node script x : string) (pre post : list string) (server : ServerEvent) :
  x <> "--sync" -> x <> "--serve" ->
  main net JSON_parse locate (node :: script :: pre ++ x :: post) server
  = main net JSON_parse locate (node :: script :: pre ++ post) server.
Proof.
  intros Hsync Hserve. unfold main. simpl skipn.
  now rewrite (includes_insert "--sync" x pre post Hsync),
              (includes_insert "--serve" x pre post Hserve).
Qed.

(** ** The properties at sample inputs *)

Lemma sync_requests_each_page_once_in_order_witness :
  net_manifest_only NAV_DATA_URL
  = Fulfilled (mkResponse true 200 "OK" (Fulfilled sample_manifest_text)
                          (Fulfilled sample_manifest))
  /\ sample_JSON_parse sample_manifest_text = Fulfilled sample_manifest
  /\ fetched (Js.exec (syncResources net_manifest_only sample_JSON_parse sample_locate)
                      fresh_process)
     = [NAV_DATA_URL; "https://x/p1.html"].
Proof.
  do 2 (split; [reflexivity|]).
  exact (sync_requests_each_page_once_in_order net_manifest_only
           sample_JSON_parse sample_locate fresh_process _ sample_manifest_text sample_manifest
           eq_refl eq_refl eq_refl eq_refl).
Defined.

Lemma sync_mirrors_manifest_witness :
  sample_JSON_parse sample_manifest_text = Fulfilled sample_manifest
  /\ NoDup (Object_keys sample_manifest)
  /\ Forall (plain_name sample_locate) (Object_keys sample_manifest)
  /\ fs (Js.exec (syncResources net_up sample_JSON_parse sample_locate) stale_process)
     = mkFileSystem (Some sample_manifest_text) (Some [("p1.html", "<h1>T</h1>")]) [].
Proof.
  assert (H : NoDup (Object_keys sample_manifest))
    by (repeat constructor; simpl; tauto).
  assert (P : Forall (plain_name sample_locate) (Object_keys sample_manifest))
    by (repeat constructor).
  split; [reflexivity|]. split; [exact H|]. split; [exact P|].
  exact (proj2 (sync_mirrors_manifest net_up sample_JSON_parse sample_locate stale_process
                  _ sample_manifest_text sample_manifest
                  eq_refl eq_refl eq_refl eq_refl H P)).
Defined.

(** A key with a separator names no file of the pages directory: the page
    is fetched, the write fails, the failure is logged and the loop goes
    on; the directory stays empty. *)
Example key_with_separator_writes_no_file :
  let net := fun _ : string =>
    Fulfilled (mkResponse true 200 "OK" (Fulfilled "<p>x</p>")
                          (Rejected (JsError "Unexpected token"))) in
  let w' := Js.exec (syncPages net sample_locate
                       [("a/b", mkNavItem "T" "https://x/ab.html");
                        ("c", mkNavItem "U" "https://x/c.html")])
                    (mkProcess (mkFileSystem None (Some []) []) [] [] []) in
  fs w' = mkFileSystem None (Some [("c.html", "<p>x</p>")]) []
  /\ fetched w' = ["https://x/ab.html"; "https://x/c.html"].
Proof. vm_compute. auto. Qed.

(** A key that climbs out of the pages directory writes its page outside
    it. *)
Example key_with_dots_writes_outside :
  let net := fun _ : string =>
    Fulfilled (mkResponse true 200 "OK" (Fulfilled "<p>x</p>")
                          (Rejected (JsError "Unexpected token"))) in
  let w' := Js.exec (syncPages net sample_locate
                       [("../escape", mkNavItem "T" "https://x/e.html")])
                    (mkProcess (mkFileSystem None (Some []) []) [] [] []) in
  fs w' = mkFileSystem None (Some []) [("escape.html", "<p>x</p>")].
Proof. vm_compute. auto. Qed.

Lemma unparsable_manifest_is_written_then_fatal_witness :
  let parse := fun _ : string => @Rejected NavData (JsError "Unexpected token") in
  includes "--serve" (skipn 2 ["node"; "dev.mjs"]) = false
  /\ Js.result (main net_up parse sample_locate ["node"; "dev.mjs"] (Close None))
               stale_process
     = Fulfilled 1
  /\ fs (Js.exec (main net_up parse sample_locate ["node"; "dev.mjs"] (Close None))
                 stale_process)
     = mkFileSystem (Some sample_manifest_text) (Some [("old.html", "<p>old</p>")]) [].
Proof.
  split; [reflexivity|].
  pose proof (unparsable_manifest_is_written_then_fatal net_up
                (fun _ : string => @Rejected NavData (JsError "Unexpected token"))
                sample_locate ["node"; "dev.mjs"] (Close None) stale_process
                _ sample_manifest_text (JsError "Unexpected token")
                eq_refl eq_refl eq_refl eq_refl eq_refl) as H.
  split; [exact (proj1 H)|exact (proj1 (proj2 H))].
Defined.

Lemma serve_flag_skips_sync_witness :
  includes "--serve" (skipn 2 ["node"; "dev.mjs"; "--serve"]) = true
  /\ includes "--sync" (skipn 2 ["node"; "dev.mjs"; "--serve"]) = false
  /\ let w' := Js.exec (main net_down sample_JSON_parse sample_locate
                             ["node"; "dev.mjs"; "--serve"] (Close (Some 0)))
                       stale_process in
     fetched w' = [] /\ fs w' = fs stale_process
     /\ spawned w' = [mkSpawn "file_server" ["."]].
Proof.
  do 2 (split; [reflexivity|]).
  exact (serve_flag_skips_sync net_down sample_JSON_parse sample_locate
           ["node"; "dev.mjs"; "--serve"] (Close (Some 0)) stale_process
           eq_refl eq_refl).
Defined.

Lemma other_arguments_are_ignored_witness :
  "--sync-only" <> "--sync" /\ "--sync-only" <> "--serve"
  /\ main net_up sample_JSON_parse sample_locate ["node"; "dev.mjs"; "--sync-only"] (Close None)
     = main net_up sample_JSON_parse sample_locate ["node"; "dev.mjs"] (Close None).
Proof.
  assert (H1 : "--sync-only" <> "--sync") by discriminate.
  assert (H2 : "--sync-only" <> "--serve") by discriminate.
  split; [exact H1|]. split; [exact H2|].
  exact (other_arguments_are_ignored net_up sample_JSON_parse sample_locate "node" "dev.mjs"
           "--sync-only" [] [] (Close None) H1 H2).
Defined.

End DevScriptExtras.
